(** * python-flamegraph: the sampling engine of [flamegraph/flamegraph.py]

    A shallow embedding of the stack encoder, the entry filter, the
    aggregator and the report writer of the profiler, and the properties
    they satisfy.

    Conventions of the embedding:
    - a Python [str] is a Rocq [string], one character per code point
      (code points below 256), so that the order on characters is the
      order on code points;
    - a Python [int] is a [Z], the sampling interval a [Q];
    - a call that may raise returns an [outcome];
    - a dictionary is a [gmap];
    - the output sink is the list of the calls made on it;
    - calls happen one after the other, so the lock of the profiler is free
      whenever a method takes it, and it is left out. *)

From Stdlib Require Import Ascii String QArith.
From stdpp Require Import base decidable option list sorting strings pretty
  numbers fin_maps gmap.

Local Open Scope Z_scope.
Local Set Warnings "-register-all".

(** ** Exceptions *)

(** The exceptions the modelled code can raise.  [Unmodelled] is not a
    Python exception: it marks an input on which the model of a builtin
    ([%] formatting, [re.compile], [signal.setitimer]) does not say what
    Python does. *)
Inductive exn : Type :=
  | KeyError (key : string)
  | ValueError
  | TypeError
  | ItimerError
  | Unmodelled.

Inductive outcome (A : Type) : Type :=
  | Return (a : A)
  | Raise (e : exn).
Arguments Return {A} a.
Arguments Raise {A} e.

Global Instance outcome_ret : MRet outcome := @Return.
Global Instance outcome_bind : MBind outcome := λ A B f m,
  match m with
  | Return a => f a
  | Raise e => Raise e
  end.

Definition returns {A} (m : outcome A) : bool :=
  match m with Return _ => true | Raise _ => false end.

(** ** Python values and the [%] operator on strings *)

Inductive pyval : Type :=
  | PyStr (s : string)
  | PyInt (z : Z).

(** [str(v)] *)
Definition str (v : pyval) : string :=
  match v with
  | PyStr s => s
  | PyInt z => pretty z
  end.

(** The right operand of [%]: a tuple of values or a mapping. *)
Inductive fmt_args : Type :=
  | Positional (vs : list pyval)
  | Mapping (d : gmap string pyval).

(** Where the scan of a format string stands. *)
Inductive fmt_state : Type :=
  | Text                                  (* copying literal characters *)
  | Percent                               (* just after a [%] *)
  | InKey (nested : nat) (key : string)   (* inside [%(...], [nested] inner [(] open *)
  | Spec (v : pyval).                     (* after [%(key)], conversion expected *)

Definition is_conversion (c : ascii) : bool :=
  (c =? "s")%char || (c =? "d")%char || (c =? "i")%char.

(** One conversion: [s] applies [str], [d] and [i] want an integer. *)
Definition convert (c : ascii) (v : pyval) : outcome string :=
  if (c =? "s")%char then Return (str v)
  else match v with
       | PyInt z => Return (pretty z)
       | PyStr _ => Raise TypeError
       end.

Definition push (out : string) (c : ascii) : string := out +:+ String c "".

(** [fmt % args] for format strings whose directives are [%%], [%s],
    [%d], [%i] and their keyed forms [%(key)s], [%(key)d], [%(key)i];
    flags, widths, precisions and the other conversions are [Unmodelled]. *)
Fixpoint format_go (st : fmt_state) (fmt : string) (args : fmt_args)
    (out : string) : outcome string :=
  match fmt with
  | EmptyString =>
      match st with
      | Text =>
          match args with
          | Positional (_ :: _) => Raise TypeError (* not all arguments converted *)
          | _ => Return out
          end
      | Percent | Spec _ => Raise ValueError       (* incomplete format *)
      | InKey _ _ => Raise ValueError              (* incomplete format key *)
      end
  | String c fmt' =>
      match st with
      | Text =>
          if (c =? "%")%char then format_go Percent fmt' args out
          else format_go Text fmt' args (push out c)
      | Percent =>
          if (c =? "%")%char then format_go Text fmt' args (push out c)
          else if (c =? "(")%char then
            match args with
            | Mapping _ => format_go (InKey 0 "") fmt' args out
            | Positional _ => Raise TypeError       (* format requires a mapping *)
            end
          else if is_conversion c then
            match args with
            | Positional [] => Raise TypeError      (* not enough arguments *)
            | Positional (v :: vs) =>
                s ← convert c v; format_go Text fmt' (Positional vs) (out +:+ s)
            | Mapping _ => Raise Unmodelled
            end
          else Raise Unmodelled
      | InKey nested key =>
          if (c =? ")")%char then
            match nested with
            | O =>
                match args with
                | Mapping d =>
                    match d !! key with
                    | Some v => format_go (Spec v) fmt' args out
                    | None => Raise (KeyError key)
                    end
                | Positional _ => Raise TypeError   (* format requires a mapping *)
                end
            | S nested' => format_go (InKey nested' (push key c)) fmt' args out
            end
          else if (c =? "(")%char then
            format_go (InKey (S nested) (push key c)) fmt' args out
          else format_go (InKey nested (push key c)) fmt' args out
      | Spec v =>
          if is_conversion c then
            s ← convert c v; format_go Text fmt' args (out +:+ s)
          else Raise Unmodelled
      end
  end.

Definition pyformat (fmt : string) (args : fmt_args) : outcome string :=
  format_go Text fmt args "".

(** ** Frames and tracebacks *)

(** A frame object: its code's file and routine name, the line being
    executed, the source text of that line when the line cache has it, and
    the calling frame ([f_back]). *)
Inductive frame : Type :=
  | Frame (co_filename : string) (f_lineno : Z) (co_name : string)
          (text : option string) (f_back : option frame).

(** One entry of a traceback, as the 4-tuple it unpacks to. *)
Definition FrameSummary : Type := string * Z * string * option string.

(** The frames from [f] outwards: [f], its caller, ... , the outermost. *)
Fixpoint walk_stack (f : frame) : list FrameSummary :=
  match f with
  | Frame fn ln name text back =>
      (fn, ln, name, text) ::
      match back with
      | Some f' => walk_stack f'
      | None => []
      end
  end.

(** [traceback.extract_stack(f)]: oldest (outermost) call first. *)
Definition extract_stack (f : frame) : list FrameSummary :=
  reverse (walk_stack f).

(** [re.sub(r'.*/', '', s)]: [.] does not match a newline, [.*] is greedy,
    so on every line of [s] everything up to and including the last [/]
    of that line is removed.  [cur] is what is kept of the current line. *)
Fixpoint re_sub_dirs_go (cur : string) (s : string) : string :=
  match s with
  | EmptyString => cur
  | String c s' =>
      if (c =? "/")%char then re_sub_dirs_go "" s'
      else if (c =? "010")%char then cur +:+ String c (re_sub_dirs_go "" s')
      else re_sub_dirs_go (push cur c) s'
  end.

Definition re_sub_dirs (s : string) : string := re_sub_dirs_go "" s.

Record FrameInfo : Type := mkFrameInfo {
  fname : string;
  short_fname : string;
  line : Z;
  fun_ : string;
}.

(** [fi._asdict()] *)
Definition _asdict (fi : FrameInfo) : gmap string pyval :=
  <["fname" := PyStr (fname fi)]>
    (<["short_fname" := PyStr (short_fname fi)]>
       (<["line" := PyInt (line fi)]>
          (<["fun" := PyStr (fun_ fi)]> ∅))).

Definition _default_format : string := "%(fun)s@%(short_fname)s:%(line)s".

Definition default_format_entry (fi : FrameInfo) (fmt : string) : outcome string :=
  pyformat fmt (Mapping (_asdict fi)).

(** [default_format_entry] called with its default [fmt]. *)
Definition default_format_entry_ (fi : FrameInfo) : outcome string :=
  default_format_entry fi _default_format.

Definition frame_info (t : FrameSummary) : FrameInfo :=
  let '(fn, ln, fun_, text) := t in
  mkFrameInfo fn (re_sub_dirs fn) ln fun_.

(** The generator [extract_frame_info], as the list of what it yields. *)
Definition extract_frame_info (f : frame) : list FrameInfo :=
  frame_info <$> drop 1 (extract_stack f).

(** The loop of the collapsing branch: [ret] and [last] are the loop's
    variables, [fis] the frames still to come. *)
Fixpoint collapse_loop (format_entry : FrameInfo → outcome string)
    (ret : list string) (last : option string) (fis : list FrameInfo)
    : outcome (list string) :=
  match fis with
  | [] => Return ret
  | fi :: fis' =>
      ret' ← (if decide (last ≠ Some (fun_ fi))
              then s ← format_entry fi; Return (ret ++ [s])
              else Return ret);
      collapse_loop format_entry ret' (Some (fun_ fi)) fis'
  end.

(** [format_entry(fi) for fi in fis], evaluated in order. *)
Fixpoint format_all (format_entry : FrameInfo → outcome string)
    (fis : list FrameInfo) : outcome (list string) :=
  match fis with
  | [] => Return []
  | fi :: fis' =>
      s ← format_entry fi;
      ss ← format_all format_entry fis';
      Return (s :: ss)
  end.

(** The body of [create_flamegraph_entry] once the frames are extracted. *)
Definition encode_frames (fis : list FrameInfo)
    (format_entry : FrameInfo → outcome string) (collapse_recursion : bool)
    : outcome string :=
  if collapse_recursion then
    ret ← collapse_loop format_entry [] None fis;
    Return (String.concat ";" ret)
  else
    ss ← format_all format_entry fis;
    Return (String.concat ";" ss).

Definition create_flamegraph_entry (f : frame)
    (format_entry : FrameInfo → outcome string) (collapse_recursion : bool)
    : outcome string :=
  encode_frames (extract_frame_info f) format_entry collapse_recursion.

(** ** The [re] module, as far as the entry filter needs it *)

(** A compiled pattern: a sequence of literal characters and [.]. *)
Inductive atom : Type :=
  | Lit (c : ascii)
  | Dot.

Definition Pattern : Type := list atom.

(** The characters with a special meaning in a pattern, [.] apart. *)
Definition is_special (c : ascii) : bool :=
  existsb (Ascii.eqb c) (list_ascii_of_string "^$*+?{}[]\|()").

(** [re.compile(pattern)] for patterns made of ordinary characters and
    [.]; the rest of the pattern language is [Unmodelled]. *)
Fixpoint re_compile (pattern : string) : outcome Pattern :=
  match pattern with
  | EmptyString => Return []
  | String c pattern' =>
      if is_special c then Raise Unmodelled
      else
        p ← re_compile pattern';
        Return ((if (c =? ".")%char then Dot else Lit c) :: p)
  end.

Definition atom_matches (a : atom) (c : ascii) : bool :=
  match a with
  | Lit x => (c =? x)%char
  | Dot => negb (c =? "010")%char
  end.

(** Does [p] match a prefix of [s]? *)
Fixpoint re_match (p : Pattern) (s : string) : bool :=
  match p with
  | [] => true
  | a :: p' =>
      match s with
      | EmptyString => false
      | String c s' => atom_matches a c && re_match p' s'
      end
  end.

(** [p.search(s)], as a truth value: does [p] match somewhere in [s]? *)
Fixpoint re_search (p : Pattern) (s : string) : bool :=
  re_match p s ||
  match s with
  | EmptyString => false
  | String _ s' => re_search p s'
  end.

(** ** The profiler *)

(** The output sink, as the calls made on it, oldest first. *)
Inductive fd_call : Type :=
  | FdWrite (s : string)
  | FdClose.

Global Instance fd_call_eq_dec : EqDecision fd_call.
Proof. solve_decision. Defined.

Record Profiler : Type := mkProfiler {
  _fd : list fd_call;
  _written : bool;
  _interval : Q;
  _format_entry : FrameInfo → outcome string;
  _collapse_recursion : bool;
  _filter : option Pattern;
  _stats : gmap string Z;
}.

Definition set_fd (fd : list fd_call) (self : Profiler) : Profiler :=
  mkProfiler fd (_written self) (_interval self) (_format_entry self)
    (_collapse_recursion self) (_filter self) (_stats self).

Definition set_written (b : bool) (self : Profiler) : Profiler :=
  mkProfiler (_fd self) b (_interval self) (_format_entry self)
    (_collapse_recursion self) (_filter self) (_stats self).

Definition set_stats (m : gmap string Z) (self : Profiler) : Profiler :=
  mkProfiler (_fd self) (_written self) (_interval self) (_format_entry self)
    (_collapse_recursion self) (_filter self) m.

(** A method of [Profiler]: it may raise, and it may change [self]; the
    state it returns with an exception is the state at the [raise]. *)
Definition method (A : Type) : Type := Profiler → outcome A * Profiler.

Global Instance method_ret : MRet method := λ A a self, (Return a, self).
Global Instance method_bind : MBind method := λ A B f m self,
  match m self with
  | (Return a, self') => f a self'
  | (Raise e, self') => (Raise e, self')
  end.

Definition lift {A} (m : outcome A) : method A := λ self, (m, self).
Definition get {A} (field : Profiler → A) : method A := λ self, (Return (field self), self).
Definition modify (f : Profiler → Profiler) : method unit := λ self, (Return tt, f self).

(** [Profiler.__init__] *)
Definition __init__ (fd : list fd_call) (interval : Q) (filter : option string)
    (format_entry : FrameInfo → outcome string) (collapse_recursion : bool)
    : outcome Profiler :=
  flt ← match filter with
        | Some pattern => p ← re_compile pattern; Return (Some p)
        | None => Return None
        end;
  Return (mkProfiler fd false interval format_entry collapse_recursion flt ∅).

(** [d[key]] on a [defaultdict(int)] that is only read. *)
Definition getitem (m : gmap string Z) (key : string) : Z := default 0 (m !! key).

(** [self._stats[entry] += 1] *)
Definition increment (entry : string) (self : Profiler) : Profiler :=
  set_stats (<[entry := getitem (_stats self) entry + 1]> (_stats self)) self.

(** [self._filter is None or self._filter.search(entry)] *)
Definition accepts (flt : option Pattern) (entry : string) : bool :=
  match flt with
  | None => true
  | Some p => re_search p entry
  end.

Definition on_itimer (signum : Z) (f : frame) : method unit :=
  format_entry ← get _format_entry;
  collapse ← get _collapse_recursion;
  entry ← lift (create_flamegraph_entry f format_entry collapse);
  flt ← get _filter;
  if accepts flt entry then modify (increment entry) else mret tt.

(** [sorted(keys)].  The order of [str] is lexicographic on code points,
    [String.le]; it is total and the keys of a dictionary are distinct, so
    the result is the one sorted arrangement of the keys, whatever the
    algorithm. *)
Definition sorted (keys : list string) : list string := merge_sort String.le keys.

(** [m.keys()], [m.values()]: in some order, the same for both. *)
Definition keys (m : gmap string Z) : list string := (map_to_list m).*1.
Definition values (m : gmap string Z) : list Z := (map_to_list m).*2.

(** [sum(l)] *)
Definition sum (l : list Z) : Z := foldr Z.add 0 l.

Definition nl : string := String "010"%char "".

(** The format string ['%s %d\n']. *)
Definition report_format : string := Eval cbv in ("%s %d" +:+ nl).

(** ['%s %d\n' % (key, n)] *)
Definition report_line (key : string) (n : Z) : outcome string :=
  pyformat report_format (Positional [PyStr key; PyInt n]).

Definition fd_write (s : string) : method unit :=
  modify (λ self, set_fd (_fd self ++ [FdWrite s]) self).

Definition fd_close : method unit :=
  modify (λ self, set_fd (_fd self ++ [FdClose]) self).

(** The [for key in ...] loop of [_write_results]. *)
Fixpoint write_loop (ks : list string) : method unit :=
  match ks with
  | [] => mret tt
  | key :: ks' =>
      stats ← get _stats;
      s ← lift (report_line key (getitem stats key));
      fd_write s;;
      write_loop ks'
  end.

Definition _write_results : method unit :=
  written ← get _written;
  if written : bool then mret tt
  else
    modify (set_written true);;
    stats ← get _stats;
    write_loop (sorted (keys stats));;
    fd_close.

Definition num_frames (self : Profiler) (unique : bool) : Z :=
  if unique then Z.of_nat (size (_stats self))
  else sum (values (_stats self)).

(** The process around the profiler: the [SIGPROF] handler, the profiling
    timer (delay, period; a zero delay disarms it) and the number of times
    [stop] was registered to run at exit. *)
Record World : Type := mkWorld {
  profiler : Profiler;
  sigprof_handler : bool;
  itimer_prof : Q * Q;
  atexit_stop : nat;
}.

(** The delays [signal.setitimer] takes: from zero to [timer_range]
    seconds.  A negative delay of two microseconds or more, down to
    [- timer_range], is refused by the system ([EINVAL]).  What happens to
    the other delays (beyond the range, or negative and nearer to zero,
    where the rounding to microseconds decides) is left open. *)
Definition timer_range : Q := (1000000000 # 1)%Q.

Definition delay_accepted (x : Q) : bool :=
  Qle_bool 0 x && Qle_bool x timer_range.

Definition delay_refused (x : Q) : bool :=
  Qle_bool (- timer_range) x && Qle_bool x (- (2 # 1000000)).

(** [signal.setitimer(signal.ITIMER_PROF, seconds, interval)]: the timer
    is set when both delays are accepted; when one is refused and the
    other accepted or refused, [ItimerError] is raised and the timer stays
    as it was. *)
Definition setitimer (seconds interval : Q) (w : World) : outcome unit * World :=
  if delay_accepted seconds && delay_accepted interval then
    (Return tt,
     mkWorld (profiler w) (sigprof_handler w) (seconds, interval) (atexit_stop w))
  else if (delay_accepted seconds || delay_refused seconds)
          && (delay_accepted interval || delay_refused interval) then
    (Raise ItimerError, w)
  else (Raise Unmodelled, w).

(** [Profiler.start], called in the main thread: the handler is installed,
    then the timer is set, then [stop] is registered to run at exit; an
    exception of [setitimer] ends the call after the first step. *)
Definition start (w : World) : outcome unit * World :=
  let w1 := mkWorld (profiler w) true (itimer_prof w) (atexit_stop w) in
  match setitimer (_interval (profiler w)) (_interval (profiler w)) w1 with
  | (Return _, w2) =>
      (Return tt,
       mkWorld (profiler w2) (sigprof_handler w2) (itimer_prof w2) (S (atexit_stop w2)))
  | (Raise e, w2) => (Raise e, w2)
  end.

Definition stop (w : World) : outcome unit * World :=
  let '(r, self') := _write_results (profiler w) in
  (r, mkWorld self' (sigprof_handler w) (0%Q, 0%Q) (atexit_stop w)).

(** The calls a profiler receives in its lifetime. *)
Inductive call : Type :=
  | Start
  | Tick (signum : Z) (f : frame)
  | WriteResults
  | Stop.

(** One call; an exception leaves the call, the state stays. *)
Definition step (w : World) (c : call) : World :=
  match c with
  | Start => (start w).2
  | Tick signum f =>
      mkWorld (on_itimer signum f (profiler w)).2 (sigprof_handler w)
        (itimer_prof w) (atexit_stop w)
  | WriteResults =>
      mkWorld (_write_results (profiler w)).2 (sigprof_handler w)
        (itimer_prof w) (atexit_stop w)
  | Stop => (stop w).2
  end.

Definition run (w : World) (cs : list call) : World := foldl step w cs.

(** ** Definitions the properties are stated with *)

(** Frame [i] of a snapshot opens a run of same-named frames: it is the
    first frame, or the frame just before it has another routine name. *)
Definition opens_run (fis : list FrameInfo) (i : nat) : bool :=
  match i with
  | O => true
  | S j => bool_decide (fun_ <$> fis !! j ≠ fun_ <$> fis !! i)
  end.

(** The frames that open a run, in the order of the snapshot. *)
Definition run_heads (fis : list FrameInfo) : list FrameInfo :=
  omap (λ i, if opens_run fis i then fis !! i else None) (seq 0 (length fis)).

(** The same frames, found in one pass that remembers the last name. *)
Fixpoint run_heads_from (last : option string) (fis : list FrameInfo)
    : list FrameInfo :=
  match fis with
  | [] => []
  | fi :: fis' =>
      if decide (last ≠ Some (fun_ fi))
      then fi :: run_heads_from (Some (fun_ fi)) fis'
      else run_heads_from (Some (fun_ fi)) fis'
  end.

(** The outermost frame of the stack [f] is the top of. *)
Fixpoint outermost (f : frame) : frame :=
  match f with
  | Frame _ _ _ _ (Some f') => outermost f'
  | Frame _ _ _ _ None => f
  end.

Definition summary (f : frame) : FrameSummary :=
  match f with
  | Frame fn ln name text _ => (fn, ln, name, text)
  end.

(** The snapshot of the specification's example. *)
Definition snapshot_mod_foo_foo : list FrameInfo :=
  [mkFrameInfo "main" "f.py" 1 "mod";
   mkFrameInfo "g" "f.py" 5 "foo";
   mkFrameInfo "g" "f.py" 5 "foo"].

(** A stack that shows the same routines: [foo] called from [foo] called
    from [mod], below an outermost frame of the launcher. *)
Definition frame_launcher : frame :=
  Frame "/opt/flamegraph/flamegraph.py" 145 "<module>" None None.
Definition frame_mod : frame :=
  Frame "/src/f.py" 1 "mod" None (Some frame_launcher).
Definition frame_foo : frame :=
  Frame "/src/f.py" 5 "foo" None (Some frame_mod).
Definition frame_foo_foo : frame :=
  Frame "/src/f.py" 5 "foo" None (Some frame_foo).

(** The entry a tick on the frame [f] counts, when it counts one. *)
Definition counted (self : Profiler) (f : frame) : option string :=
  match create_flamegraph_entry f (_format_entry self) (_collapse_recursion self) with
  | Return entry => if accepts (_filter self) entry then Some entry else None
  | Raise _ => None
  end.

Definition counted_entries (self : Profiler) (samples : list (Z * frame))
    : list string :=
  omap (λ x, counted self x.2) samples.

(** [self] after one tick per sample; a tick that raises leaves [self] as
    it was. *)
Definition ticks (self : Profiler) (samples : list (Z * frame)) : Profiler :=
  foldl (λ s x, (on_itimer x.1 x.2 s).2) self samples.

(** The counts [m] after the entries [es] were counted one by one. *)
Definition add_all (m : gmap string Z) (es : list string) : gmap string Z :=
  foldl (λ m e, <[e := getitem m e + 1]> m) m es.

Definition occurrences (key : string) (es : list string) : nat :=
  length (filter (λ e, e = key) es).

(** The line of the report for [key] with count [n]. *)
Definition line_of (key : string) (n : Z) : string :=
  key +:+ " " +:+ pretty n +:+ nl.

(** The writes of the report for the counts [m]. *)
Definition report (m : gmap string Z) : list fd_call :=
  (λ key, FdWrite (line_of key (getitem m key))) <$> sorted (keys m).

(** What the first run of [_write_results] makes of [self]. *)
Definition finalized (self : Profiler) : Profiler :=
  set_fd (_fd self ++ report (_stats self) ++ [FdClose]) (set_written true self).

(** The calls that write the report. *)
Definition finalizing (c : call) : bool :=
  match c with
  | Stop | WriteResults => true
  | Start | Tick _ _ => false
  end.

(** How often the sink was closed. *)
Definition closes (fd : list fd_call) : nat :=
  length (filter (λ c, c = FdClose) fd).

(** What was written to the sink, in order. *)
Definition written_text (fd : list fd_call) : list string :=
  omap (λ c, match c with FdWrite s => Some s | FdClose => None end) fd.

(** What a call makes of the profiler; the rest of the process does not
    enter. *)
Definition profiler_step (self : Profiler) (c : call) : Profiler :=
  match c with
  | Start => self
  | Tick signum f => (on_itimer signum f self).2
  | WriteResults | Stop => (_write_results self).2
  end.

(** [mid] is matched by [p], atom by atom. *)
Definition matched_by (p : Pattern) (mid : string) : Prop :=
  Forall2 (λ a c, atom_matches a c = true) p (list_ascii_of_string mid).

(** A profiler with the filter ["foo"], the default format and the counts
    [m]. *)
Definition profiler_foo (m : gmap string Z) : Profiler :=
  mkProfiler [] false (1 # 1000)%Q default_format_entry_ false
    (Some [Lit "f"; Lit "o"; Lit "o"]) m.

(** Stacks that are encoded as ["bar@f.py:1"] and as ["foo@f.py:1"]. *)
Definition frame_bar_1 : frame :=
  Frame "/src/f.py" 1 "bar" None (Some frame_launcher).
Definition frame_foo_1 : frame :=
  Frame "/src/f.py" 1 "foo" None (Some frame_launcher).

(** A profiler started with the format [%(fn)s]. *)
Definition profiler_fn : Profiler :=
  mkProfiler [] false (1 # 1000)%Q (λ fi, default_format_entry fi "%(fn)s") false
    None ∅.

(** The stack of [frame_foo_foo] below another outermost frame. *)
Definition frame_runpy : frame :=
  Frame "/usr/lib/python3/runpy.py" 87 "_run_code" None None.
Definition frame_foo_foo_runpy : frame :=
  Frame "/src/f.py" 5 "foo" None
    (Some (Frame "/src/f.py" 5 "foo" None
       (Some (Frame "/src/f.py" 1 "mod" None (Some frame_runpy))))).

(** Some counts, a world around a profiler that holds them, and some
    samples. *)
Definition stats_example : gmap string Z :=
  <["mod@f.py:1;foo@f.py:5" := 3]> (<["bar@f.py:1" := 12]> ∅).

Definition world_example : World :=
  mkWorld (profiler_foo stats_example) true ((1 # 1000)%Q, (1 # 1000)%Q) 1.

Definition samples_example : list (Z * frame) :=
  [(27, frame_foo_1); (27, frame_bar_1); (27, frame_foo_foo); (27, frame_foo_1)].

(** ** The rest of the module *)

(** A live thread, as [threading.enumerate()] lists it. *)
Record Thread : Type := mkThread {
  ident : Z;
  getName : string;
}.

(** [get_thread_name]; [threads] is what [threading.enumerate()] returns. *)
Fixpoint get_thread_name (threads : list Thread) (ident_ : Z) : string :=
  match threads with
  | [] => pretty ident_
  | th :: threads' =>
      if decide (ident th = ident_) then getName th
      else get_thread_name threads' ident_
  end.

(** [start_profiler]; [w] is the process before the call: its handler, its
    timer and its exit functions (its [profiler] is not looked at).  The
    profiler that is returned is the [profiler] of the world that results;
    when [__init__] raises nothing has changed. *)
Definition start_profiler (fd : list fd_call) (interval : Q)
    (filter : option string) (format_entry : FrameInfo → outcome string)
    (collapse_recursion : bool) (w : World) : outcome unit * World :=
  match __init__ fd interval filter format_entry collapse_recursion with
  | Return self =>
      start (mkWorld self (sigprof_handler w) (itimer_prof w) (atexit_stop w))
  | Raise e => (Raise e, w)
  end.

(** The end of the process: the functions registered with [atexit] run,
    that is [stop], once for every time it was registered. *)
Definition at_exit (w : World) : World :=
  run w (replicate (atexit_stop w) Stop).

(** Does the character [c] occur in [s]? *)
Fixpoint occurs (c : ascii) (s : string) : bool :=
  match s with
  | EmptyString => false
  | String x s' => (x =? c)%char || occurs c s'
  end.

(** The routine name of the last frame of a snapshot. *)
Definition last_fun (fis : list FrameInfo) : option string := fun_ <$> last fis.

(** No frame of the snapshot has the routine name of the frame before it;
    [last] is the name before the first frame, if there is one. *)
Fixpoint adjacent_distinct (last : option string) (fis : list FrameInfo) : bool :=
  match fis with
  | [] => true
  | fi :: fis' =>
      bool_decide (last ≠ Some (fun_ fi)) && adjacent_distinct (Some (fun_ fi)) fis'
  end.

(** A pattern character that stands for itself. *)
Definition ordinary_char (c : ascii) : bool :=
  negb (is_special c) && negb (c =? ".")%char.

Definition ordinary (pattern : string) : bool :=
  forallb ordinary_char (list_ascii_of_string pattern).

Definition is_start (c : call) : bool :=
  match c with
  | Start => true
  | _ => false
  end.

(** The calls of one tick per sample. *)
Definition tick_calls (samples : list (Z * frame)) : list call :=
  (λ x, Tick x.1 x.2) <$> samples.

(** The record of a frame in the default format. *)
Definition default_record (fi : FrameInfo) : string :=
  fun_ fi +:+ "@" +:+ short_fname fi +:+ ":" +:+ pretty (line fi).

(** Every count of the table is at least one. *)
Definition counts_positive (m : gmap string Z) : Prop :=
  ∀ key n, m !! key = Some n → 1 ≤ n.

(** A profiler with the default format and no filter, nothing counted
    yet, in a process that has not started it; some live threads. *)
Definition profiler_default : Profiler :=
  mkProfiler [] false (1 # 1000)%Q default_format_entry_ false None ∅.

Definition world_idle : World :=
  mkWorld profiler_default false (0%Q, 0%Q) 0.

(** The same with the interval of minus one second. *)
Definition world_negative : World :=
  mkWorld (mkProfiler [] false (- (1))%Q default_format_entry_ false None ∅)
    false (0%Q, 0%Q) 0.

Definition threads_example : list Thread :=
  [mkThread 140001 "MainThread"; mkThread 140002 "Thread-1"].

(** The frames of the profiler itself are the frames whose code is in its
    source file, [program]. *)
Definition in_program (program : string) (fi : FrameInfo) : bool :=
  String.eqb (fname fi) program.

Definition flamegraph_py : string := "/opt/flamegraph/flamegraph.py".

(** The stack of a tick when the profiler runs a script from its command
    line: the [<module>] of the profiler has called [main], which executes
    the script. *)
Definition frame_cli_main : frame :=
  Frame flamegraph_py 138 "main" None (Some frame_launcher).
Definition frame_cli_script : frame :=
  Frame "/src/script.py" 3 "<module>" None (Some frame_cli_main).

(** The stack of a tick when the script itself has called
    [start_profiler]: no frame of the profiler is on it. *)
Definition frame_lib_module : frame :=
  Frame "/src/script.py" 9 "<module>" None None.
Definition frame_lib_work : frame :=
  Frame "/src/script.py" 5 "work" None (Some frame_lib_module).

(** * Properties *)

(** ** The encoder *)

Lemma format_all_ext (fe1 fe2 : FrameInfo → outcome string) (fis : list FrameInfo) :
  (∀ fi, fi ∈ fis → fe1 fi = fe2 fi) →
  format_all fe1 fis = format_all fe2 fis.
Proof.
  induction fis as [|fi fis IH]; intros Hext; [reflexivity|].
  simpl. rewrite Hext by left. rewrite IH; [reflexivity|].
  intros fi' Hin. apply Hext. by right.
Qed.

Lemma collapse_loop_ext (fe1 fe2 : FrameInfo → outcome string)
    (fis : list FrameInfo) (ret : list string) (last : option string) :
  (∀ fi, fi ∈ fis → fe1 fi = fe2 fi) →
  collapse_loop fe1 ret last fis = collapse_loop fe2 ret last fis.
Proof.
  revert ret last. induction fis as [|fi fis IH]; intros ret last Hext; [reflexivity|].
  simpl. rewrite Hext by left.
  destruct (decide (last ≠ Some (fun_ fi))); simpl.
  - destruct (fe2 fi); simpl; [|reflexivity].
    apply IH. intros fi' Hin. apply Hext. by right.
  - apply IH. intros fi' Hin. apply Hext. by right.
Qed.

Lemma encode_frames_ext (fe1 fe2 : FrameInfo → outcome string)
    (fis : list FrameInfo) (c : bool) :
  (∀ fi, fi ∈ fis → fe1 fi = fe2 fi) →
  encode_frames fis fe1 c = encode_frames fis fe2 c.
Proof.
  intros Hext. unfold encode_frames. destruct c.
  - by rewrite (collapse_loop_ext fe1 fe2).
  - by rewrite (format_all_ext fe1 fe2).
Qed.

(** The loop formats the frames that open a run, in order, and puts the
    records after the ones it started with. *)
Lemma collapse_loop_run_heads (fe : FrameInfo → outcome string)
    (fis : list FrameInfo) (ret : list string) (last : option string) :
  collapse_loop fe ret last fis =
  (ss ← format_all fe (run_heads_from last fis); Return (ret ++ ss)).
Proof.
  revert ret last. induction fis as [|fi fis IH]; intros ret last; simpl.
  - by rewrite app_nil_r.
  - destruct (decide (last ≠ Some (fun_ fi))); simpl.
    + destruct (fe fi) as [s|e]; simpl; [|reflexivity].
      rewrite IH. destruct (format_all fe _) as [ss|e]; simpl; [|reflexivity].
      by rewrite <- app_assoc.
    + apply IH.
Qed.

Lemma run_heads_from_index (pre fis : list FrameInfo) :
  omap (λ i, if opens_run (pre ++ fis) i then (pre ++ fis) !! i else None)
       (seq (length pre) (length fis))
  = run_heads_from (fun_ <$> last pre) fis.
Proof.
  revert pre. induction fis as [|fi fis IH]; intros pre; [reflexivity|].
  cbn [length seq omap list_omap run_heads_from].
  specialize (IH (pre ++ [fi])).
  rewrite <- app_assoc, length_app, last_snoc in IH. cbn [app length fmap option_fmap option_map] in IH.
  rewrite Nat.add_1_r in IH. rewrite IH. clear IH.
  assert ((pre ++ fi :: fis) !! length pre = Some fi) as Hi.
  { by rewrite lookup_app_r, Nat.sub_diag by lia. }
  assert (opens_run (pre ++ fi :: fis) (length pre)
          = bool_decide (fun_ <$> last pre ≠ Some (fun_ fi))) as ->.
  { destruct pre as [|p pre _] using rev_ind; [reflexivity|].
    rewrite last_snoc. rewrite length_app in *. cbn [length] in *.
    rewrite Nat.add_1_r in *. cbn [opens_run]. rewrite Hi.
    replace (((pre ++ [p]) ++ fi :: fis) !! length pre) with (Some p); [reflexivity|].
    rewrite <- app_assoc. by rewrite lookup_app_r, Nat.sub_diag by lia. }
  rewrite Hi. destruct (decide (fun_ <$> last pre ≠ Some (fun_ fi))) as [Hne|Heq].
  - by rewrite bool_decide_true.
  - by rewrite bool_decide_false.
Qed.

Lemma run_heads_from_None (fis : list FrameInfo) :
  run_heads_from None fis = run_heads fis.
Proof. symmetry. apply (run_heads_from_index [] fis). Qed.

(** Induction along [f_back]. *)
Lemma frame_back_ind (P : frame → Prop) :
  (∀ fn ln name text, P (Frame fn ln name text None)) →
  (∀ fn ln name text f', P f' → P (Frame fn ln name text (Some f'))) →
  ∀ f, P f.
Proof.
  intros Hroot Hcall. fix IH 1.
  intros [fn ln name text [f'|]]; [apply Hcall, IH|apply Hroot].
Qed.

Lemma extract_stack_outermost (f : frame) :
  ∃ rest, extract_stack f = summary (outermost f) :: rest.
Proof.
  unfold extract_stack.
  induction f as [fn ln name text|fn ln name text f' [rest IH]] using frame_back_ind.
  - by exists [].
  - exists (rest ++ [(fn, ln, name, text)]).
    cbn [walk_stack outermost]. by rewrite reverse_cons, IH.
Qed.

Lemma run_heads_three (a b c : FrameInfo) :
  run_heads [a; b; c] =
  a :: (if decide (fun_ a ≠ fun_ b) then [b] else [])
    ++ (if decide (fun_ b ≠ fun_ c) then [c] else []).
Proof.
  rewrite <- run_heads_from_None. cbn [run_heads_from].
  repeat case_decide; simpl; try reflexivity; exfalso; congruence.
Qed.

Lemma elem_of_run_heads (fis : list FrameInfo) (fi : FrameInfo) :
  fi ∈ run_heads fis ↔ ∃ i, fis !! i = Some fi ∧ opens_run fis i = true.
Proof.
  unfold run_heads. rewrite list_elem_of_omap. split.
  - intros (i & _ & Hi). exists i. destruct (opens_run fis i); by simplify_eq.
  - intros (i & Hi & Ho). exists i. rewrite Ho. split; [|done].
    apply elem_of_seq. apply lookup_lt_Some in Hi. lia.
Qed.

(** C1.  The encoding is a function of the snapshot, of what the
    formatting function returns on the snapshot's frames, and of the
    collapse flag, and of nothing else: two calls that agree on these
    return the same string (or raise the same exception).  On the snapshot
    [(main,f.py,1,"mod"), (g,f.py,5,"foo"), (g,f.py,5,"foo")] with the
    default format the result is ["mod@f.py:1;foo@f.py:5"] with collapsing
    and ["mod@f.py:1;foo@f.py:5;foo@f.py:5"] without; a stack [mod], [foo],
    [foo] below the launcher's frame gives the same two strings. *)
Theorem create_flamegraph_entry_deterministic :
  (∀ (f1 f2 : frame) (fe1 fe2 : FrameInfo → outcome string) (c : bool),
     extract_frame_info f1 = extract_frame_info f2 →
     (∀ fi, fi ∈ extract_frame_info f1 → fe1 fi = fe2 fi) →
     create_flamegraph_entry f1 fe1 c = create_flamegraph_entry f2 fe2 c) ∧
  encode_frames snapshot_mod_foo_foo default_format_entry_ true
    = Return "mod@f.py:1;foo@f.py:5" ∧
  encode_frames snapshot_mod_foo_foo default_format_entry_ false
    = Return "mod@f.py:1;foo@f.py:5;foo@f.py:5" ∧
  create_flamegraph_entry frame_foo_foo default_format_entry_ true
    = Return "mod@f.py:1;foo@f.py:5" ∧
  create_flamegraph_entry frame_foo_foo default_format_entry_ false
    = Return "mod@f.py:1;foo@f.py:5;foo@f.py:5".
Proof.
  split; [|repeat split; vm_compute; reflexivity].
  intros f1 f2 fe1 fe2 c Hf Hfe. unfold create_flamegraph_entry.
  rewrite <- Hf. by apply encode_frames_ext.
Qed.

(** C2.  With collapsing, the encoder formats the frame at index [i] of
    the snapshot exactly when [i = 0] or the frame at [i - 1] has another
    routine name than the frame at [i]; the records are joined in the
    order of the snapshot.  Whether a frame is emitted depends on its
    immediate predecessor only: of three frames [a], [b], [c] the last is
    emitted when its name differs from [b]'s, also when it is [a]'s. *)
Theorem collapse_recursion_folds_adjacent_only :
  (∀ (fis : list FrameInfo) (fe : FrameInfo → outcome string),
     encode_frames fis fe true
     = (ss ← format_all fe (run_heads fis); Return (String.concat ";" ss))) ∧
  (∀ (f : frame) (fe : FrameInfo → outcome string),
     create_flamegraph_entry f fe true
     = (ss ← format_all fe (run_heads (extract_frame_info f));
        Return (String.concat ";" ss))) ∧
  (∀ (fis : list FrameInfo) (fi : FrameInfo),
     fi ∈ run_heads fis ↔ ∃ i, fis !! i = Some fi ∧ opens_run fis i = true) ∧
  (∀ (fis : list FrameInfo) (i : nat),
     opens_run fis i = true ↔
     i = 0%nat ∨ ∃ j, i = S j ∧ fun_ <$> fis !! j ≠ fun_ <$> fis !! i) ∧
  (∀ a b c : FrameInfo,
     run_heads [a; b; c] =
     a :: (if decide (fun_ a ≠ fun_ b) then [b] else [])
       ++ (if decide (fun_ b ≠ fun_ c) then [c] else [])).
Proof.
  assert (∀ fis fe, encode_frames fis fe true
     = (ss ← format_all fe (run_heads fis); Return (String.concat ";" ss))) as Henc.
  { intros fis fe. unfold encode_frames.
    rewrite collapse_loop_run_heads, run_heads_from_None.
    by destruct (format_all fe (run_heads fis)). }
  split; [exact Henc|]. split; [intros f fe; apply Henc|].
  split; [apply elem_of_run_heads|]. split; [|apply run_heads_three].
  intros fis [|j]; simpl.
  - split; [by left|done].
  - rewrite bool_decide_eq_true. split.
    + intros H. right. by exists j.
    + intros [?|(j' & ? & H)]; [done|]. by simplify_eq.
Qed.

(** C8.  A snapshot without frames is encoded as the empty string, with
    and without collapsing, and no call of the formatting function is
    made; this is the snapshot of a frame that has no caller. *)
Theorem empty_snapshot_encodes_to_empty_string
    (fe : FrameInfo → outcome string) (c : bool) :
  encode_frames [] fe c = Return "" ∧
  ∀ fn ln name text,
    extract_frame_info (Frame fn ln name text None) = [] ∧
    create_flamegraph_entry (Frame fn ln name text None) fe c = Return "".
Proof. by destruct c. Qed.

(** What frame extraction does.  The traceback of a frame starts with the
    outermost frame of its stack; frame extraction drops that entry and
    keeps every other one, in order, so the encoded entry is computed from
    the other entries alone: two stacks that differ in the outermost frame
    only have the same encoding. *)
Theorem extract_frame_info_drops_outermost_frame :
  (∀ f : frame, ∃ rest,
     extract_stack f = summary (outermost f) :: rest ∧
     extract_frame_info f = frame_info <$> rest ∧
     ∀ fe c, create_flamegraph_entry f fe c = encode_frames (frame_info <$> rest) fe c) ∧
  (∀ (f1 f2 : frame) (t1 t2 : FrameSummary) (rest : list FrameSummary) fe c,
     extract_stack f1 = t1 :: rest →
     extract_stack f2 = t2 :: rest →
     create_flamegraph_entry f1 fe c = create_flamegraph_entry f2 fe c).
Proof.
  split.
  - intros f. destruct (extract_stack_outermost f) as [rest Hrest].
    exists rest. unfold create_flamegraph_entry, extract_frame_info.
    by rewrite Hrest.
  - intros f1 f2 t1 t2 rest fe c H1 H2.
    unfold create_flamegraph_entry, extract_frame_info. by rewrite H1, H2.
Qed.

(** C9, on the code.  The frame that is dropped is the outermost frame of
    the interrupted stack, whatever it belongs to, and no other.  Under
    the command line the profiler's [<module>] is dropped but its [main]
    stays in every entry; when the script has started the profiler itself,
    the frame dropped is the script's own [<module>], so that a routine
    called from it is reported without it and a tick in it has the empty
    entry.  So it is not true that no frame of the profiler is in a
    snapshot. *)
Lemma profiler_frame_main_stays_in_entry :
  existsb (in_program flamegraph_py) (extract_frame_info frame_cli_script) = true ∧
  create_flamegraph_entry frame_cli_script default_format_entry_ false
  = Return "main@flamegraph.py:138;<module>@script.py:3" ∧
  existsb (in_program flamegraph_py) (frame_info <$> extract_stack frame_lib_work)
  = false ∧
  create_flamegraph_entry frame_lib_work default_format_entry_ false
  = Return "work@script.py:5" ∧
  create_flamegraph_entry frame_lib_module default_format_entry_ false = Return "" ∧
  ¬ (∀ (program : string) (f : frame),
       existsb (in_program program) (extract_frame_info f) = false).
Proof.
  assert (existsb (in_program flamegraph_py) (extract_frame_info frame_cli_script)
          = true) as Hcli by (vm_compute; reflexivity).
  split; [exact Hcli|]. repeat (split; [vm_compute; reflexivity|]).
  intros Hnone. by rewrite Hnone in Hcli.
Qed.

(** ** The aggregator *)

Lemma sum_Permutation (l1 l2 : list Z) : l1 ≡ₚ l2 → sum l1 = sum l2.
Proof.
  unfold sum. induction 1; simpl; lia.
Qed.

Lemma sum_values_insert_fresh (m : gmap string Z) (k : string) (v : Z) :
  m !! k = None → sum (values (<[k := v]> m)) = v + sum (values m).
Proof.
  intros Hk. unfold values.
  by rewrite (sum_Permutation _ _ (fmap_Permutation snd _ _ (map_to_list_insert m k v Hk))).
Qed.

Lemma sum_values_increment (m : gmap string Z) (k : string) :
  sum (values (<[k := getitem m k + 1]> m)) = sum (values m) + 1.
Proof.
  unfold getitem. destruct (m !! k) as [v|] eqn:Hk; simpl.
  - rewrite <- (insert_delete_eq m k (v + 1)).
    rewrite sum_values_insert_fresh by apply lookup_delete_eq.
    unfold values at 2.
    rewrite <- (sum_Permutation _ _ (fmap_Permutation snd _ _ (map_to_list_delete m k v Hk))).
    unfold values, sum. rewrite fmap_cons. cbn [foldr snd]. lia.
  - rewrite sum_values_insert_fresh by done. lia.
Qed.

(** The counts after the entries [es] were counted, one after the other. *)
Lemma getitem_increment (m : gmap string Z) (e k : string) :
  getitem (<[e := getitem m e + 1]> m) k
  = getitem m k + (if decide (e = k) then 1 else 0).
Proof.
  unfold getitem at 1. rewrite lookup_insert. case_decide; subst; simpl.
  - reflexivity.
  - unfold getitem. lia.
Qed.

Lemma getitem_add_all (es : list string) (m : gmap string Z) (k : string) :
  getitem (add_all m es) k = getitem m k + Z.of_nat (occurrences k es).
Proof.
  revert m. induction es as [|e es IH]; intros m.
  - unfold occurrences. simpl. lia.
  - cbn [add_all foldl]. fold (add_all (<[e := getitem m e + 1]> m) es).
    rewrite IH, getitem_increment. unfold occurrences. rewrite filter_cons.
    case_decide; simpl; lia.
Qed.

Lemma sum_values_add_all (es : list string) (m : gmap string Z) :
  sum (values (add_all m es)) = sum (values m) + Z.of_nat (length es).
Proof.
  revert m. induction es as [|e es IH]; intros m.
  - simpl. lia.
  - cbn [add_all foldl]. fold (add_all (<[e := getitem m e + 1]> m) es).
    rewrite IH, sum_values_increment. simpl. lia.
Qed.

Lemma dom_add_all (es : list string) (m : gmap string Z) :
  dom (add_all m es) = dom m ∪ list_to_set es.
Proof.
  revert m. induction es as [|e es IH]; intros m.
  - simpl. by rewrite (right_id_L ∅ (∪)).
  - cbn [add_all foldl]. fold (add_all (<[e := getitem m e + 1]> m) es).
    rewrite IH, dom_insert_L, list_to_set_cons.
    by rewrite (assoc_L (∪)), (comm_L (∪) (dom m) {[e]}).
Qed.

Lemma size_list_to_set_remove_dups (es : list string) :
  size (list_to_set es : gset string) = length (remove_dups es).
Proof.
  rewrite <- (size_list_to_set (C := gset string) (remove_dups es))
    by apply NoDup_remove_dups.
  f_equal. apply set_eq. intros x.
  by rewrite !elem_of_list_to_set, elem_of_remove_dups.
Qed.

(** ** The interrupt handler *)

Lemma on_itimer_unfold (signum : Z) (f : frame) (self : Profiler) :
  on_itimer signum f self =
  match create_flamegraph_entry f (_format_entry self) (_collapse_recursion self) with
  | Return entry =>
      (Return tt, if accepts (_filter self) entry then increment entry self else self)
  | Raise e => (Raise e, self)
  end.
Proof.
  unfold on_itimer, mbind, method_bind, get, lift, modify, mret, method_ret.
  destruct (create_flamegraph_entry f _ _) as [entry|e]; [|reflexivity].
  by destruct (accepts (_filter self) entry).
Qed.

Lemma on_itimer_counted (signum : Z) (f : frame) (self : Profiler) :
  (on_itimer signum f self).2 =
  match counted self f with
  | Some entry => increment entry self
  | None => self
  end.
Proof.
  rewrite on_itimer_unfold. unfold counted.
  destruct (create_flamegraph_entry f _ _) as [entry|e]; [|reflexivity].
  by destruct (accepts (_filter self) entry).
Qed.

Lemma set_stats_set_stats (m1 m2 : gmap string Z) (self : Profiler) :
  set_stats m2 (set_stats m1 self) = set_stats m2 self.
Proof. reflexivity. Qed.

Lemma set_stats_id (self : Profiler) : set_stats (_stats self) self = self.
Proof. by destruct self. Qed.

(** Ticks change the counts and nothing else. *)
Lemma ticks_add_all (samples : list (Z * frame)) (self : Profiler) :
  ticks self samples
  = set_stats (add_all (_stats self) (counted_entries self samples)) self.
Proof.
  revert self. induction samples as [|x samples IH]; intros self.
  - simpl. by rewrite set_stats_id.
  - cbn [ticks foldl]. fold (ticks ((on_itimer x.1 x.2 self).2) samples).
    rewrite IH, on_itimer_counted. unfold counted_entries. cbn [omap list_omap].
    destruct (counted self x.2) as [entry|]; [|reflexivity].
    unfold increment. rewrite set_stats_set_stats. reflexivity.
Qed.

(** C3.  Start from a profiler whose table of counts is empty and let any
    sequence of ticks happen; call [es] the entries that were accepted, in
    order.  Then [num_frames()] is the length of [es], [num_frames(True)]
    is the number of distinct entries of [es], the count stored for a key
    is its number of occurrences in [es], and the keys of the table are
    the entries of [es]. *)
Theorem num_frames_after_ticks (self : Profiler) (samples : list (Z * frame)) :
  _stats self = ∅ →
  let self' := ticks self samples in
  let es := counted_entries self samples in
  num_frames self' false = Z.of_nat (length es) ∧
  num_frames self' true = Z.of_nat (length (remove_dups es)) ∧
  (∀ key, getitem (_stats self') key = Z.of_nat (occurrences key es)) ∧
  (∀ key, is_Some (_stats self' !! key) ↔ key ∈ es).
Proof.
  intros Hempty self' es. subst self'. rewrite ticks_add_all. fold es.
  unfold num_frames. cbn [_stats set_stats]. rewrite Hempty.
  split; [|split; [|split]].
  - rewrite sum_values_add_all. unfold values. by rewrite map_to_list_empty.
  - f_equal. rewrite <- size_dom, dom_add_all, dom_empty_L, (left_id_L ∅ (∪)).
    apply size_list_to_set_remove_dups.
  - intros key. by rewrite getitem_add_all.
  - intros key. rewrite <- elem_of_dom, dom_add_all, dom_empty_L, (left_id_L ∅ (∪)).
    apply elem_of_list_to_set.
Qed.

(** ** The report writer *)

Lemma append_assoc (a b c : string) : (a +:+ b) +:+ c = a +:+ (b +:+ c).
Proof.
  induction a as [|x a IH]; [reflexivity|].
  change (String x ((a +:+ b) +:+ c) = String x (a +:+ (b +:+ c))).
  by rewrite IH.
Qed.

Lemma report_line_returns (key : string) (n : Z) :
  report_line key n = Return (line_of key n).
Proof.
  unfold report_line, pyformat, report_format, line_of, nl. simpl.
  unfold push. change ("" +:+ key) with key.
  by rewrite !append_assoc.
Qed.

Lemma write_loop_returns (ks : list string) (self : Profiler) :
  write_loop ks self =
  (Return tt,
   set_fd (_fd self ++ ((λ key, FdWrite (line_of key (getitem (_stats self) key))) <$> ks))
     self).
Proof.
  revert self. induction ks as [|key ks IH]; intros self.
  - simpl. unfold mret, method_ret. rewrite app_nil_r. by destruct self.
  - cbn [write_loop]. unfold mbind, method_bind, get, lift, fd_write, modify.
    rewrite report_line_returns, IH. cbn [_fd _stats set_fd].
    by rewrite fmap_cons, <- app_assoc.
Qed.

Lemma _write_results_unfold (self : Profiler) :
  _write_results self =
  (Return tt, if _written self then self else finalized self).
Proof.
  unfold _write_results, mbind, method_bind, get, modify, fd_close.
  destruct (_written self) eqn:Hw; [reflexivity|].
  rewrite write_loop_returns. unfold finalized, report.
  cbn [_fd _stats set_fd set_written]. unfold modify.
  cbn [_fd _stats set_fd set_written]. by rewrite <- app_assoc.
Qed.

Lemma elem_of_keys (m : gmap string Z) (key : string) :
  key ∈ keys m ↔ is_Some (m !! key).
Proof.
  unfold keys. rewrite list_elem_of_fmap. split.
  - intros ([k v] & -> & Hin). apply elem_of_map_to_list in Hin. by exists v.
  - intros [v Hv]. exists (key, v). split; [done|]. by apply elem_of_map_to_list.
Qed.

Lemma sorted_keys_spec (m : gmap string Z) :
  StronglySorted String.le (sorted (keys m)) ∧
  NoDup (sorted (keys m)) ∧
  ∀ key, key ∈ sorted (keys m) ↔ is_Some (m !! key).
Proof.
  unfold sorted. split; [apply (StronglySorted_merge_sort _)|]. split.
  - rewrite merge_sort_Permutation. apply NoDup_fst_map_to_list.
  - intros key. rewrite merge_sort_Permutation. apply elem_of_keys.
Qed.

(** C4.  The first run of [_write_results] writes, for the keys of the
    table in the order [ks], the line [key], space, the decimal count of
    [key], newline, and then closes the sink; [ks] holds every key of the
    table once and is sorted by the order of strings (each key is below
    all the keys after it). *)
Theorem report_one_sorted_line_per_entry (self : Profiler) :
  _written self = false →
  ∃ ks : list string,
    (_write_results self).1 = Return tt ∧
    _fd (_write_results self).2
      = _fd self
        ++ ((λ key, FdWrite (key +:+ " " +:+ pretty (getitem (_stats self) key) +:+ nl))
              <$> ks)
        ++ [FdClose] ∧
    NoDup ks ∧
    (∀ key, key ∈ ks ↔ is_Some (_stats self !! key)) ∧
    StronglySorted String.le ks ∧
    Sorted String.le ks.
Proof.
  intros Hw. exists (sorted (keys (_stats self))).
  rewrite _write_results_unfold, Hw. cbn [fst snd finalized _fd set_fd].
  destruct (sorted_keys_spec (_stats self)) as (Hs & Hn & Hk).
  repeat split; try done; try apply Hk.
  by apply StronglySorted_Sorted.
Qed.

(** ** The life of a profiler *)

Lemma stop_unfold (w : World) :
  stop w =
  (Return tt,
   mkWorld (if _written (profiler w) then profiler w else finalized (profiler w))
     (sigprof_handler w) (0%Q, 0%Q) (atexit_stop w)).
Proof. unfold stop. by rewrite _write_results_unfold. Qed.

Lemma start_unfold (w : World) :
  start w =
  if delay_accepted (_interval (profiler w)) then
    (Return tt,
     mkWorld (profiler w) true (_interval (profiler w), _interval (profiler w))
       (S (atexit_stop w)))
  else
    (Raise (if delay_refused (_interval (profiler w)) then ItimerError else Unmodelled),
     mkWorld (profiler w) true (itimer_prof w) (atexit_stop w)).
Proof.
  unfold start, setitimer. cbn [profiler sigprof_handler itimer_prof atexit_stop].
  destruct (delay_accepted (_interval (profiler w))); [reflexivity|].
  by destruct (delay_refused (_interval (profiler w))).
Qed.

Lemma profiler_start (w : World) : profiler (start w).2 = profiler w.
Proof.
  rewrite start_unfold. by destruct (delay_accepted (_interval (profiler w))).
Qed.

Lemma profiler_step_correct (w : World) (c : call) :
  profiler (step w c) = profiler_step (profiler w) c.
Proof.
  destruct c; try reflexivity.
  - apply profiler_start.
  - cbn [step profiler_step]. by rewrite stop_unfold, _write_results_unfold.
Qed.

Lemma profiler_run (cs : list call) (w : World) :
  profiler (run w cs) = foldl profiler_step (profiler w) cs.
Proof.
  revert w. induction cs as [|c cs IH]; intros w; [reflexivity|].
  cbn [run foldl]. fold (run (step w c) cs). by rewrite IH, profiler_step_correct.
Qed.

Lemma profiler_step_tick (signum : Z) (f : frame) (self : Profiler) :
  ∃ m, profiler_step self (Tick signum f) = set_stats m self.
Proof.
  cbn [profiler_step]. rewrite on_itimer_counted.
  destruct (counted self f) as [entry|].
  - by eexists.
  - exists (_stats self). by rewrite set_stats_id.
Qed.

Lemma profiler_step_finalizing (self : Profiler) (c : call) :
  finalizing c = true →
  profiler_step self c = if _written self then self else finalized self.
Proof.
  destruct c; try discriminate; intros _; cbn [profiler_step];
    by rewrite _write_results_unfold.
Qed.

Lemma profiler_step_other (self : Profiler) (c : call) :
  finalizing c = false →
  _written (profiler_step self c) = _written self ∧
  _fd (profiler_step self c) = _fd self.
Proof.
  destruct c as [|signum f| |]; try discriminate; intros _; [done|].
  destruct (profiler_step_tick signum f self) as [m ->]. done.
Qed.

Lemma profiler_step_filter (self : Profiler) (c : call) :
  _filter (profiler_step self c) = _filter self.
Proof.
  destruct c as [|signum f| |]; [done| | |].
  - destruct (profiler_step_tick signum f self) as [m ->]. done.
  - rewrite profiler_step_finalizing by done. by destruct (_written self).
  - rewrite profiler_step_finalizing by done. by destruct (_written self).
Qed.

Lemma profiler_step_written (self : Profiler) (c : call) :
  _written self = true →
  _written (profiler_step self c) = true ∧
  _fd (profiler_step self c) = _fd self.
Proof.
  intros Hw. destruct (finalizing c) eqn:Hc.
  - rewrite profiler_step_finalizing by done. by rewrite Hw.
  - destruct (profiler_step_other self c Hc) as [-> ->]. done.
Qed.

Lemma foldl_profiler_step_written (cs : list call) (self : Profiler) :
  _written self = true →
  _written (foldl profiler_step self cs) = true ∧
  _fd (foldl profiler_step self cs) = _fd self.
Proof.
  revert self. induction cs as [|c cs IH]; intros self Hw; [done|].
  cbn [foldl]. destruct (profiler_step_written self c Hw) as [Hw' Hfd].
  destruct (IH _ Hw') as [-> ->]. done.
Qed.

Lemma foldl_profiler_step_other (cs : list call) (self : Profiler) :
  existsb finalizing cs = false →
  _written (foldl profiler_step self cs) = _written self ∧
  _fd (foldl profiler_step self cs) = _fd self.
Proof.
  revert self. induction cs as [|c cs IH]; intros self Hcs; [done|].
  cbn [existsb] in Hcs. apply orb_false_iff in Hcs as [Hc Hcs].
  cbn [foldl]. destruct (profiler_step_other self c Hc) as [Hw Hfd].
  destruct (IH (profiler_step self c) Hcs) as [-> ->]. done.
Qed.

(** The sink after a life that starts before the report is written: the
    report of the counts at the first finalizing call, once. *)
Lemma foldl_profiler_step_first (cs1 cs2 : list call) (c : call) (self : Profiler) :
  _written self = false →
  existsb finalizing cs1 = false →
  finalizing c = true →
  _fd (foldl profiler_step self (cs1 ++ c :: cs2))
  = _fd self ++ report (_stats (foldl profiler_step self cs1)) ++ [FdClose].
Proof.
  intros Hw Hcs1 Hc. rewrite foldl_app. cbn [foldl].
  destruct (foldl_profiler_step_other cs1 self Hcs1) as [Hw1 Hfd1].
  rewrite Hw in Hw1. rewrite (profiler_step_finalizing _ c Hc), Hw1.
  destruct (foldl_profiler_step_written cs2 (finalized (foldl profiler_step self cs1)))
    as [_ ->]; [done|].
  cbn [finalized _fd set_fd]. by rewrite Hfd1.
Qed.

Lemma closes_app (l1 l2 : list fd_call) : closes (l1 ++ l2) = (closes l1 + closes l2)%nat.
Proof. unfold closes. by rewrite filter_app, length_app. Qed.

Lemma closes_report (m : gmap string Z) : closes (report m) = 0%nat.
Proof.
  unfold report. induction (sorted (keys m)) as [|k ks IH]; [reflexivity|].
  rewrite fmap_cons. unfold closes in *. rewrite filter_cons.
  by destruct (decide _).
Qed.

Lemma existsb_first {A} (P : A → bool) (l : list A) :
  existsb P l = true →
  ∃ l1 x l2, l = l1 ++ x :: l2 ∧ existsb P l1 = false ∧ P x = true.
Proof.
  induction l as [|y l IH]; [discriminate|]. cbn [existsb].
  destruct (P y) eqn:Hy.
  - intros _. by exists [], y, l.
  - intros H. destruct (IH H) as (l1 & x & l2 & -> & H1 & Hx).
    exists (y :: l1), x, l2. cbn [existsb]. by rewrite Hy, H1.
Qed.

Lemma stop_stop (w : World) : stop (stop w).2 = (Return tt, (stop w).2).
Proof.
  rewrite !stop_unfold. cbn [snd profiler sigprof_handler atexit_stop].
  by destruct (_written (profiler w)) eqn:Hw; [rewrite Hw|].
Qed.

Lemma run_stops (n : nat) (w : World) :
  run (stop w).2 (replicate n Stop) = (stop w).2.
Proof.
  induction n as [|n IH]; [reflexivity|].
  cbn [replicate run foldl step]. rewrite stop_stop. exact IH.
Qed.

(** C5.  [stop] is idempotent: a second [stop] returns and changes nothing,
    so any number of [stop]s, one at least, leave the world that one [stop]
    leaves.  When the report was not yet written they append to the sink
    the report of the counts and one [close]; and in the life of a
    profiler that starts unwritten with a sink never closed, the sink is
    closed once if a finalizing call occurs, whatever the other calls are,
    and not at all otherwise. *)
Theorem stop_idempotent :
  (∀ w : World, stop (stop w).2 = (Return tt, (stop w).2)) ∧
  (∀ (w : World) (n : nat), run w (replicate (S n) Stop) = (stop w).2) ∧
  (∀ (w : World) (n : nat),
     _written (profiler w) = false →
     _fd (profiler (run w (replicate (S n) Stop)))
     = _fd (profiler w) ++ report (_stats (profiler w)) ++ [FdClose]) ∧
  (∀ (w : World) (cs : list call),
     _written (profiler w) = false →
     closes (_fd (profiler w)) = 0%nat →
     closes (_fd (profiler (run w cs)))
     = if existsb finalizing cs then 1%nat else 0%nat).
Proof.
  split; [exact stop_stop|]. split; [intros w n; apply run_stops|]. split.
  - intros w n Hw. cbn [replicate run foldl step]. fold (run (stop w).2 (replicate n Stop)).
    rewrite run_stops, stop_unfold, Hw. reflexivity.
  - intros w cs Hw Hfd. rewrite profiler_run.
    destruct (existsb finalizing cs) eqn:Hcs.
    + destruct (existsb_first _ _ Hcs) as (cs1 & c & cs2 & -> & Hcs1 & Hc).
      rewrite (foldl_profiler_step_first cs1 cs2 c _ Hw Hcs1 Hc).
      rewrite !closes_app, closes_report, Hfd. reflexivity.
    + destruct (foldl_profiler_step_other cs (profiler w) Hcs) as [_ ->]. exact Hfd.
Qed.

(** C10.  Once the report is written the flag stays set and no call
    touches the sink again; a tick that comes later and is accepted still
    adds one to its entry in the table; so the sink of a profiler that
    starts unwritten holds, after any calls, nothing new if none of them
    finalizes, and otherwise the report of the counts at the first
    finalizing call followed by one [close]. *)
Theorem finalization_is_final :
  (∀ (w : World) (cs : list call),
     _written (profiler w) = true →
     _written (profiler (run w cs)) = true ∧
     _fd (profiler (run w cs)) = _fd (profiler w)) ∧
  (∀ (self : Profiler) (signum : Z) (f : frame) (entry : string),
     _written self = true →
     counted self f = Some entry →
     let self' := (on_itimer signum f self).2 in
     _stats self' = <[entry := getitem (_stats self) entry + 1]> (_stats self) ∧
     _stats self' ≠ _stats self ∧
     _fd self' = _fd self ∧ _written self' = true) ∧
  (∀ (w : World) (cs1 cs2 : list call) (c : call),
     _written (profiler w) = false →
     existsb finalizing cs1 = false →
     finalizing c = true →
     _fd (profiler (run w (cs1 ++ c :: cs2)))
     = _fd (profiler w) ++ report (_stats (profiler (run w cs1))) ++ [FdClose]) ∧
  (∀ (w : World) (cs : list call),
     _written (profiler w) = false →
     existsb finalizing cs = false →
     _fd (profiler (run w cs)) = _fd (profiler w)).
Proof.
  split; [|split; [|split]].
  - intros w cs Hw. rewrite profiler_run. by apply foldl_profiler_step_written.
  - intros self signum f entry Hw Hc self'. subst self'.
    rewrite on_itimer_counted, Hc. cbn [increment _stats _fd _written set_stats].
    split; [done|]. split; [|done].
    intros Heq. apply (f_equal (λ m, getitem m entry)) in Heq.
    rewrite getitem_increment in Heq. rewrite decide_True in Heq by done. lia.
  - intros w cs1 cs2 c Hw Hcs1 Hc. rewrite !profiler_run.
    by apply foldl_profiler_step_first.
  - intros w cs Hw Hcs. rewrite profiler_run.
    by destruct (foldl_profiler_step_other cs (profiler w) Hcs) as [_ ->].
Qed.

(** ** The entry filter *)

Lemma app_String (c : ascii) (s t : string) :
  String c s +:+ t = String c (s +:+ t).
Proof. reflexivity. Qed.

Lemma app_empty_inv (s t : string) : s +:+ t = "" → s = "" ∧ t = "".
Proof. destruct s; [intros H; split; [reflexivity|exact H]|discriminate]. Qed.

Lemma re_match_spec (p : Pattern) (s : string) :
  re_match p s = true ↔ ∃ mid post, s = mid +:+ post ∧ matched_by p mid.
Proof.
  revert s. induction p as [|a p IH]; intros s; cbn [re_match].
  - split; [|done]. intros _. exists "", s. split; [done|]. constructor.
  - destruct s as [|c s].
    + split; [done|]. intros (mid & post & Hs & Hm).
      symmetry in Hs. apply app_empty_inv in Hs as [-> _]. inversion Hm.
    + rewrite andb_true_iff, IH. split.
      * intros (Hc & mid & post & -> & Hm). exists (String c mid), post.
        split; [done|]. by constructor.
      * intros (mid & post & Hs & Hm). destruct mid as [|c' mid]; [inversion Hm|].
        rewrite app_String in Hs. injection Hs as -> ->.
        inversion Hm; subst. split; [done|]. by exists mid, post.
Qed.

(** [search] finds a match exactly when the string has a piece that the
    pattern matches atom by atom. *)
Lemma re_search_spec (p : Pattern) (s : string) :
  re_search p s = true ↔
  ∃ pre mid post, s = pre +:+ mid +:+ post ∧ matched_by p mid.
Proof.
  induction s as [|c s IH].
  - cbn [re_search]. rewrite orb_false_r, re_match_spec. split.
    + intros (mid & post & Hs & Hm). by exists "", mid, post.
    + intros (pre & mid & post & Hs & Hm).
      symmetry in Hs. apply app_empty_inv in Hs as [-> Hs]. by exists mid, post.
  - cbn [re_search]. rewrite orb_true_iff, IH, re_match_spec. split.
    + intros [(mid & post & Hs & Hm)|(pre & mid & post & -> & Hm)].
      * by exists "", mid, post.
      * by exists (String c pre), mid, post.
    + intros (pre & mid & post & Hs & Hm). destruct pre as [|c' pre].
      * left. by exists mid, post.
      * rewrite app_String in Hs. injection Hs as -> ->. right. by exists pre, mid, post.
Qed.

(** C6.  No call changes the filter that [__init__] has set.  A tick whose
    encoding returns [entry] counts it when no pattern was given, and with
    a compiled pattern [p] counts it exactly when [p] matches some piece of
    the whole entry string, leaving the profiler as it was otherwise.
    With the pattern ["foo"] a tick encoded as ["bar@f.py:1"] changes
    nothing and a tick encoded as ["foo@f.py:1"] adds one to that entry,
    whatever the counts are. *)
Theorem filter_applies_to_whole_entry :
  (∀ (w : World) (cs : list call),
     _filter (profiler (run w cs)) = _filter (profiler w)) ∧
  (∀ fd interval fe c,
     __init__ fd interval None fe c = Return (mkProfiler fd false interval fe c None ∅)) ∧
  (∀ fd interval pattern fe c,
     __init__ fd interval (Some pattern) fe c
     = (p ← re_compile pattern; Return (mkProfiler fd false interval fe c (Some p) ∅))) ∧
  (∀ (self : Profiler) (signum : Z) (f : frame) (entry : string),
     create_flamegraph_entry f (_format_entry self) (_collapse_recursion self)
       = Return entry →
     on_itimer signum f self
     = (Return tt,
        match _filter self with
        | None => increment entry self
        | Some p => if re_search p entry then increment entry self else self
        end)) ∧
  (∀ (p : Pattern) (entry : string),
     re_search p entry = true ↔
     ∃ pre mid post, entry = pre +:+ mid +:+ post ∧ matched_by p mid) ∧
  __init__ [] (1 # 1000)%Q (Some "foo") default_format_entry_ false
    = Return (profiler_foo ∅) ∧
  (∀ m : gmap string Z,
     create_flamegraph_entry frame_bar_1 default_format_entry_ false
       = Return "bar@f.py:1" ∧
     on_itimer 27 frame_bar_1 (profiler_foo m) = (Return tt, profiler_foo m)) ∧
  (∀ m : gmap string Z,
     create_flamegraph_entry frame_foo_1 default_format_entry_ false
       = Return "foo@f.py:1" ∧
     on_itimer 27 frame_foo_1 (profiler_foo m)
     = (Return tt,
        profiler_foo (<["foo@f.py:1" := getitem m "foo@f.py:1" + 1]> m))).
Proof.
  split.
  { intros w cs. rewrite profiler_run. generalize (profiler w).
    induction cs as [|c cs IH]; intros self; [done|].
    cbn [foldl]. by rewrite IH, profiler_step_filter. }
  split; [done|]. split.
  { intros fd interval pattern fe c. unfold __init__.
    by destruct (re_compile pattern). }
  split.
  { intros self signum f entry Henc. rewrite on_itimer_unfold, Henc.
    unfold accepts. by destruct (_filter self). }
  split; [exact re_search_spec|]. split; [by vm_compute|].
  assert (create_flamegraph_entry frame_bar_1 default_format_entry_ false
          = Return "bar@f.py:1") as Hbar by (by vm_compute).
  assert (create_flamegraph_entry frame_foo_1 default_format_entry_ false
          = Return "foo@f.py:1") as Hfoo by (by vm_compute).
  split; intros m; (split; [done|]); rewrite on_itimer_unfold;
    cbn [profiler_foo _format_entry _collapse_recursion _filter].
  - rewrite Hbar. reflexivity.
  - rewrite Hfoo. reflexivity.
Qed.

(** ** Exceptions in the handler *)

Lemma format_all_returns (fe : FrameInfo → outcome string) (fis : list FrameInfo) :
  returns (format_all fe fis) = forallb (λ fi, returns (fe fi)) fis.
Proof.
  induction fis as [|fi fis IH]; [reflexivity|]. cbn [format_all forallb].
  destruct (fe fi) as [s|e]; [|reflexivity]. cbn [returns andb].
  rewrite <- IH. by destruct (format_all fe fis).
Qed.

Lemma format_all_raises (fe : FrameInfo → outcome string) (fis : list FrameInfo)
    (e : exn) :
  format_all fe fis = Raise e ↔
  ∃ fis1 fi fis2,
    fis = fis1 ++ fi :: fis2 ∧
    forallb (λ fi, returns (fe fi)) fis1 = true ∧ fe fi = Raise e.
Proof.
  induction fis as [|fi fis IH]; cbn [format_all].
  - split; [done|]. intros (fis1 & fi & fis2 & H & _). by destruct fis1.
  - destruct (fe fi) as [s|e'] eqn:Hfi.
    + transitivity (format_all fe fis = Raise e).
      { cbn. by destruct (format_all fe fis). }
      rewrite IH. split.
      * intros (fis1 & fi' & fis2 & -> & H1 & H2).
        exists (fi :: fis1), fi', fis2. cbn [forallb]. by rewrite Hfi, H1.
      * intros (fis1 & fi' & fis2 & H & H1 & H2). destruct fis1 as [|x fis1].
        -- injection H as <- _. congruence.
        -- injection H as <- ->. cbn [forallb] in H1.
           apply andb_true_iff in H1 as [_ H1]. by exists fis1, fi', fis2.
    + cbn. split.
      * intros [= ->]. by exists [], fi, fis.
      * intros (fis1 & fi' & fis2 & H & H1 & H2). destruct fis1 as [|x fis1].
        -- injection H as <- _. congruence.
        -- injection H as <- ->. cbn [forallb] in H1. rewrite Hfi in H1. done.
Qed.

(** The frames the formatting function is applied to. *)
Lemma encode_frames_formats (fis : list FrameInfo)
    (fe : FrameInfo → outcome string) (c : bool) :
  encode_frames fis fe c
  = (ss ← format_all fe (if c then run_heads fis else fis);
     Return (String.concat ";" ss)).
Proof.
  destruct c; [|reflexivity]. unfold encode_frames.
  rewrite collapse_loop_run_heads, run_heads_from_None.
  by destruct (format_all fe (run_heads fis)).
Qed.

(** C7, as the code has it.  [on_itimer] has no handler of its own.  It
    returns exactly when the formatting function returns on every frame it
    is applied to: all the extracted frames, or with collapsing the frames
    that open a run.  Otherwise it raises the exception of the first of
    these frames on which the formatting function raises, and the profiler
    is as it was before the tick. *)
Theorem on_itimer_propagates_format_errors
    (self : Profiler) (signum : Z) (f : frame) :
  let fe := _format_entry self in
  let formatted :=
    if _collapse_recursion self then run_heads (extract_frame_info f)
    else extract_frame_info f in
  returns (on_itimer signum f self).1 = forallb (λ fi, returns (fe fi)) formatted ∧
  (∀ e : exn,
     on_itimer signum f self = (Raise e, self) ↔
     ∃ fis1 fi fis2,
       formatted = fis1 ++ fi :: fis2 ∧
       forallb (λ fi, returns (fe fi)) fis1 = true ∧ fe fi = Raise e) ∧
  (∀ e : exn,
     (on_itimer signum f self).1 = Raise e → (on_itimer signum f self).2 = self).
Proof.
  intros fe formatted. rewrite on_itimer_unfold. unfold create_flamegraph_entry.
  rewrite encode_frames_formats. fold fe formatted.
  split; [|split].
  - rewrite <- format_all_returns. by destruct (format_all fe formatted).
  - intros e. rewrite <- format_all_raises.
    destruct (format_all fe formatted) as [ss|e']; cbn; split; congruence.
  - intros e. by destruct (format_all fe formatted).
Qed.

(** C7, as the specification has it, does not hold: with the format
    [%(fn)s], which the help of the [-F] option suggests, every tick on a
    stack of more than one frame raises [KeyError: 'fn'] out of the
    handler. *)
Lemma on_itimer_raises_KeyError :
  on_itimer 27 frame_foo_foo profiler_fn = (Raise (KeyError "fn"), profiler_fn) ∧
  ¬ (∀ (self : Profiler) (signum : Z) (f : frame),
        returns (on_itimer signum f self).1 = true).
Proof.
  assert (on_itimer 27 frame_foo_foo profiler_fn = (Raise (KeyError "fn"), profiler_fn))
    as H by (by vm_compute).
  split; [exact H|]. intros Hnever.
  specialize (Hnever profiler_fn 27 frame_foo_foo). by rewrite H in Hnever.
Qed.

(** ** The theorems at concrete inputs *)

Lemma create_flamegraph_entry_deterministic_witness :
  create_flamegraph_entry frame_foo_foo default_format_entry_ true
  = create_flamegraph_entry frame_foo_foo_runpy
      (λ fi, default_format_entry fi _default_format) true.
Proof.
  apply (proj1 create_flamegraph_entry_deterministic).
  - reflexivity.
  - intros fi _. reflexivity.
Defined.

Lemma num_frames_after_ticks_witness :
  num_frames (ticks (profiler_foo ∅) samples_example) false = 3 ∧
  num_frames (ticks (profiler_foo ∅) samples_example) true = 2 ∧
  getitem (_stats (ticks (profiler_foo ∅) samples_example)) "foo@f.py:1" = 2.
Proof.
  destruct (num_frames_after_ticks (profiler_foo ∅) samples_example eq_refl)
    as (H1 & H2 & H3 & _).
  split; [|split].
  - etrans; [exact H1|]. vm_compute. reflexivity.
  - etrans; [exact H2|]. vm_compute. reflexivity.
  - etrans; [exact (H3 _)|]. vm_compute. reflexivity.
Defined.

Lemma report_one_sorted_line_per_entry_witness :
  ∃ ks : list string,
    (_write_results (profiler_foo stats_example)).1 = Return tt ∧
    _fd (_write_results (profiler_foo stats_example)).2
      = _fd (profiler_foo stats_example)
        ++ ((λ key, FdWrite (key +:+ " " +:+ pretty (getitem stats_example key) +:+ nl))
              <$> ks)
        ++ [FdClose] ∧
    NoDup ks ∧
    (∀ key, key ∈ ks ↔ is_Some (stats_example !! key)) ∧
    StronglySorted String.le ks ∧
    Sorted String.le ks.
Proof.
  apply (report_one_sorted_line_per_entry (profiler_foo stats_example)).
  reflexivity.
Defined.

Lemma stop_idempotent_witness :
  _fd (profiler (run world_example [Stop; Stop]))
  = _fd (profiler world_example) ++ report (_stats (profiler world_example)) ++ [FdClose].
Proof.
  apply (proj1 (proj2 (proj2 stop_idempotent)) world_example 1%nat).
  reflexivity.
Defined.

Lemma filter_applies_to_whole_entry_witness :
  on_itimer 27 frame_foo_foo (profiler_foo ∅)
  = (Return tt, increment "mod@f.py:1;foo@f.py:5;foo@f.py:5" (profiler_foo ∅)).
Proof.
  apply (proj1 (proj2 (proj2 (proj2 filter_applies_to_whole_entry)))
           (profiler_foo ∅) 27 frame_foo_foo "mod@f.py:1;foo@f.py:5;foo@f.py:5").
  vm_compute. reflexivity.
Defined.

Lemma on_itimer_propagates_format_errors_witness :
  on_itimer 27 frame_foo_foo profiler_fn = (Raise (KeyError "fn"), profiler_fn).
Proof.
  apply (proj1 (proj2 (on_itimer_propagates_format_errors profiler_fn 27 frame_foo_foo))).
  exists [], (mkFrameInfo "/src/f.py" "f.py" 1 "mod"),
    [mkFrameInfo "/src/f.py" "f.py" 5 "foo"; mkFrameInfo "/src/f.py" "f.py" 5 "foo"].
  repeat split; vm_compute; reflexivity.
Defined.

Lemma extract_frame_info_drops_outermost_frame_witness :
  create_flamegraph_entry frame_foo_foo default_format_entry_ false
  = create_flamegraph_entry frame_foo_foo_runpy default_format_entry_ false.
Proof.
  apply (proj2 extract_frame_info_drops_outermost_frame frame_foo_foo frame_foo_foo_runpy
           (summary frame_launcher) (summary frame_runpy)
           [("/src/f.py", 1, "mod", None); ("/src/f.py", 5, "foo", None);
            ("/src/f.py", 5, "foo", None)]).
  - reflexivity.
  - reflexivity.
Defined.

Lemma finalization_is_final_witness :
  _fd (profiler (run world_example
         ([Tick 27 frame_foo_1] ++ Stop :: [Tick 27 frame_foo_1; Stop])))
  = _fd (profiler world_example)
    ++ report (_stats (profiler (run world_example [Tick 27 frame_foo_1])))
    ++ [FdClose].
Proof.
  apply (proj1 (proj2 (proj2 finalization_is_final)) world_example).
  - reflexivity.
  - reflexivity.
  - reflexivity.
Defined.

(** The report of [stats_example], as text. *)
Example report_text_example :
  written_text (_fd (_write_results (profiler_foo stats_example)).2)
  = ["bar@f.py:1 12" +:+ nl; "mod@f.py:1;foo@f.py:5 3" +:+ nl] ∧
  closes (_fd (_write_results (profiler_foo stats_example)).2) = 1%nat.
Proof. split; vm_compute; reflexivity. Qed.

(** An entry's file name is cut after the last [/] of each of its lines. *)
Example re_sub_dirs_example :
  re_sub_dirs "/opt/flamegraph/flamegraph.py" = "flamegraph.py" ∧
  re_sub_dirs "f.py" = "f.py" ∧
  re_sub_dirs ("a/b" +:+ nl +:+ "c/d") = "b" +:+ nl +:+ "d".
Proof. repeat split; vm_compute; reflexivity. Qed.

(** * More properties of the module *)

(** ** Short file names *)

Lemma occurs_app (c : ascii) (s t : string) :
  occurs c (s +:+ t) = occurs c s || occurs c t.
Proof.
  induction s as [|x s IH]; [reflexivity|].
  rewrite app_String. cbn [occurs]. by rewrite IH, orb_assoc.
Qed.

Lemma re_sub_dirs_go_no_slash (s cur : string) :
  occurs "/" cur = false → occurs "/" (re_sub_dirs_go cur s) = false.
Proof.
  revert cur. induction s as [|c s IH]; intros cur Hcur; [exact Hcur|].
  cbn [re_sub_dirs_go]. destruct (Ascii.eqb_spec c "/") as [->|Hslash].
  - by apply IH.
  - destruct (Ascii.eqb_spec c "010") as [->|Hnl].
    + rewrite occurs_app, Hcur. cbn [occurs orb]. by rewrite IH.
    + apply IH. unfold push. rewrite occurs_app, Hcur. cbn [occurs orb].
      rewrite orb_false_r. by apply Ascii.eqb_neq.
Qed.

Lemma re_sub_dirs_go_keeps (s cur : string) :
  occurs "/" s = false → re_sub_dirs_go cur s = cur +:+ s.
Proof.
  revert cur. induction s as [|c s IH]; intros cur Hs.
  - cbn [re_sub_dirs_go]. induction cur as [|x cur IHc]; [reflexivity|].
    rewrite app_String. by rewrite <- IHc.
  - cbn [occurs] in Hs. apply orb_false_iff in Hs as [Hc Hs].
    cbn [re_sub_dirs_go]. rewrite Hc.
    destruct (c =? "010")%char.
    + rewrite (IH "" Hs). reflexivity.
    + rewrite (IH _ Hs). unfold push. by rewrite append_assoc.
Qed.

Lemma re_sub_dirs_go_dir (dir rest cur : string) :
  occurs "010" dir = false →
  re_sub_dirs_go cur (dir +:+ String "/" rest) = re_sub_dirs_go "" rest.
Proof.
  revert cur. induction dir as [|c dir IH]; intros cur Hdir.
  - reflexivity.
  - cbn [occurs] in Hdir. apply orb_false_iff in Hdir as [Hc Hdir].
    rewrite app_String. cbn [re_sub_dirs_go]. rewrite Hc.
    destruct (c =? "/")%char; by apply IH.
Qed.

(** X1.  The short file name of a frame holds no [/]: cutting the
    directories again changes nothing, and every extracted frame carries
    the cut form of its own file name. *)
Theorem short_fname_has_no_slash :
  (∀ s : string, occurs "/" (re_sub_dirs s) = false) ∧
  (∀ s : string, re_sub_dirs (re_sub_dirs s) = re_sub_dirs s) ∧
  (∀ f : frame,
     Forall (λ fi, short_fname fi = re_sub_dirs (fname fi) ∧
                   occurs "/" (short_fname fi) = false)
       (extract_frame_info f)).
Proof.
  assert (∀ s, occurs "/" (re_sub_dirs s) = false) as Hno.
  { intros s. by apply re_sub_dirs_go_no_slash. }
  split; [exact Hno|]. split.
  - intros s. unfold re_sub_dirs at 1. by rewrite re_sub_dirs_go_keeps.
  - intros f. unfold extract_frame_info. apply Forall_fmap, Forall_forall.
    intros [[[fn ln] name] text] _. cbn. split; [reflexivity|apply Hno].
Qed.

(** X2.  For a path on one line the short file name is what follows the
    last [/]: of [dir/base], where [dir] holds no newline and [base] no
    [/], it is [base]; a name without [/] is kept as it is. *)
Theorem short_fname_is_basename (dir base : string) :
  occurs "010" dir = false →
  occurs "/" base = false →
  re_sub_dirs (dir +:+ String "/" base) = base ∧ re_sub_dirs base = base.
Proof.
  intros Hdir Hbase. unfold re_sub_dirs.
  rewrite re_sub_dirs_go_dir by done. by rewrite re_sub_dirs_go_keeps.
Qed.

(** ** Formatting a frame *)

Lemma app_empty_r (s : string) : s +:+ "" = s.
Proof.
  induction s as [|x s IH]; [reflexivity|]. rewrite app_String. by rewrite IH.
Qed.

Lemma push_app (out : string) (c : ascii) (s : string) :
  push out c +:+ s = out +:+ String c s.
Proof. unfold push. by rewrite append_assoc. Qed.

(** Literal text is copied to the output. *)
Lemma format_go_text (text rest : string) (args : fmt_args) (out : string) :
  occurs "%" text = false →
  format_go Text (text +:+ rest) args out = format_go Text rest args (out +:+ text).
Proof.
  revert out. induction text as [|c text IH]; intros out Htext.
  - by rewrite app_empty_r.
  - cbn [occurs] in Htext. apply orb_false_iff in Htext as [Hc Htext].
    rewrite app_String. cbn [format_go]. rewrite Hc.
    rewrite IH by done. by rewrite push_app.
Qed.

(** A key without parentheses is read up to its [)] and looked up. *)
Lemma format_go_key (key rest acc : string) (d : gmap string pyval) (out : string) :
  occurs "(" key = false →
  occurs ")" key = false →
  format_go (InKey 0 acc) (key +:+ String ")" rest) (Mapping d) out =
  match d !! (acc +:+ key) with
  | Some v => format_go (Spec v) rest (Mapping d) out
  | None => Raise (KeyError (acc +:+ key))
  end.
Proof.
  revert acc. induction key as [|c key IH]; intros acc Hopen Hclose.
  - rewrite app_empty_r. reflexivity.
  - cbn [occurs] in Hopen, Hclose.
    apply orb_false_iff in Hopen as [Hc1 Hopen].
    apply orb_false_iff in Hclose as [Hc2 Hclose].
    rewrite app_String. cbn [format_go]. rewrite Hc1, Hc2.
    rewrite IH by done. by rewrite push_app.
Qed.

(** The directive [%(key)s] after some literal text. *)
Lemma format_go_directive (text key rest : string) (d : gmap string pyval)
    (out : string) :
  occurs "%" text = false →
  occurs "(" key = false →
  occurs ")" key = false →
  format_go Text (text +:+ "%(" +:+ key +:+ String ")" rest) (Mapping d) out =
  match d !! key with
  | Some v => format_go (Spec v) rest (Mapping d) (out +:+ text)
  | None => Raise (KeyError key)
  end.
Proof.
  intros Htext Hopen Hclose. rewrite format_go_text by done.
  change ("%(" +:+ key +:+ String ")" rest)
    with (String "%" (String "(" (key +:+ String ")" rest))).
  cbn [format_go]. change (("%" =? "%")%char) with true.
  change (("(" =? "%")%char) with false. change (("(" =? "(")%char) with true.
  cbv iota. by rewrite format_go_key.
Qed.

Lemma _asdict_lookup (fi : FrameInfo) (key : string) :
  _asdict fi !! key =
  if decide (key = "fname") then Some (PyStr (fname fi))
  else if decide (key = "short_fname") then Some (PyStr (short_fname fi))
  else if decide (key = "line") then Some (PyInt (line fi))
  else if decide (key = "fun") then Some (PyStr (fun_ fi))
  else None.
Proof.
  unfold _asdict. rewrite !lookup_insert, lookup_empty.
  repeat case_decide; congruence.
Qed.

Lemma format_go_spec_s (v : pyval) (rest : string) (args : fmt_args) (out : string) :
  format_go (Spec v) (String "s" rest) args out
  = format_go Text rest args (out +:+ str v).
Proof. reflexivity. Qed.

Lemma default_format_entry_returns (fi : FrameInfo) :
  default_format_entry fi _default_format
  = Return (fun_ fi +:+ "@" +:+ short_fname fi +:+ ":" +:+ pretty (line fi)).
Proof.
  unfold default_format_entry, pyformat.
  change _default_format
    with ("" +:+ "%(" +:+ "fun" +:+ String ")"
            (String "s" ("@" +:+ "%(" +:+ "short_fname" +:+ String ")"
               (String "s" (":" +:+ "%(" +:+ "line" +:+ String ")"
                  (String "s" "")))))).
  rewrite format_go_directive, _asdict_lookup by reflexivity.
  rewrite !decide_False, decide_True, format_go_spec_s by done.
  rewrite format_go_directive, _asdict_lookup by reflexivity.
  rewrite !decide_False, decide_True, format_go_spec_s by done.
  rewrite format_go_directive, _asdict_lookup by reflexivity.
  rewrite !decide_False, decide_True, format_go_spec_s by done.
  cbn [format_go str]. rewrite !app_empty_r.
  change ("" +:+ fun_ fi) with (fun_ fi). by rewrite !append_assoc.
Qed.

Lemma format_all_returns_fmap (fe : FrameInfo → outcome string)
    (g : FrameInfo → string) (fis : list FrameInfo) :
  (∀ fi, fe fi = Return (g fi)) →
  format_all fe fis = Return (g <$> fis).
Proof.
  intros Hfe. induction fis as [|fi fis IH]; [reflexivity|].
  cbn [format_all]. by rewrite Hfe, IH.
Qed.

Lemma create_flamegraph_entry_default (f : frame) (c : bool) :
  create_flamegraph_entry f default_format_entry_ c
  = Return (String.concat ";"
      (default_record <$>
         (if c then run_heads (extract_frame_info f) else extract_frame_info f))).
Proof.
  unfold create_flamegraph_entry. rewrite encode_frames_formats.
  by rewrite (format_all_returns_fmap _ default_record)
    by apply default_format_entry_returns.
Qed.

(** X3.  With the default format no frame fails to format: the record of
    a frame is its routine name, [@], its short file name, [:] and its
    line number in decimal, and the entry of a stack is the records of the
    frames that are formatted, joined by [;]. *)
Theorem default_format_never_raises :
  (∀ fi : FrameInfo,
     default_format_entry fi _default_format
     = Return (fun_ fi +:+ "@" +:+ short_fname fi +:+ ":" +:+ pretty (line fi))) ∧
  (∀ (f : frame) (c : bool),
     create_flamegraph_entry f default_format_entry_ c
     = Return (String.concat ";"
         (default_record <$>
            (if c then run_heads (extract_frame_info f) else extract_frame_info f)))).
Proof.
  split; [exact default_format_entry_returns|exact create_flamegraph_entry_default].
Qed.

(** X4.  A format whose first directive names a key that a frame does not
    have (the keys are [fname], [short_fname], [line] and [fun]) raises
    [KeyError] with that key, whatever follows the key. *)
Theorem unknown_format_key_raises_KeyError
    (fi : FrameInfo) (text key rest : string) :
  occurs "%" text = false →
  occurs "(" key = false →
  occurs ")" key = false →
  key ≠ "fname" → key ≠ "short_fname" → key ≠ "line" → key ≠ "fun" →
  default_format_entry fi (text +:+ "%(" +:+ key +:+ String ")" rest)
  = Raise (KeyError key).
Proof.
  intros Htext Hopen Hclose H1 H2 H3 H4. unfold default_format_entry, pyformat.
  rewrite format_go_directive, _asdict_lookup by done.
  by rewrite !decide_False by done.
Qed.

(** ** Counting *)

Lemma num_frames_ticks (self : Profiler) (samples : list (Z * frame)) :
  num_frames (ticks self samples) false
  = num_frames self false + Z.of_nat (length (counted_entries self samples)).
Proof.
  rewrite ticks_add_all. unfold num_frames. cbn [_stats set_stats].
  apply sum_values_add_all.
Qed.

Lemma counted_default (self : Profiler) (f : frame) :
  _format_entry self = default_format_entry_ →
  _filter self = None →
  ∃ entry, counted self f = Some entry.
Proof.
  intros Hfe Hflt. unfold counted.
  rewrite Hfe, create_flamegraph_entry_default, Hflt. by eexists.
Qed.

(** X5.  A profiler with the default format and no filter counts every
    tick: the handler returns, and after the ticks [num_frames()] has
    grown by their number. *)
Theorem every_tick_counted_by_default
    (self : Profiler) (samples : list (Z * frame)) :
  _format_entry self = default_format_entry_ →
  _filter self = None →
  (∀ signum f, (on_itimer signum f self).1 = Return tt) ∧
  num_frames (ticks self samples) false
  = num_frames self false + Z.of_nat (length samples).
Proof.
  intros Hfe Hflt. split.
  - intros signum f. rewrite on_itimer_unfold, Hfe.
    by rewrite create_flamegraph_entry_default.
  - rewrite num_frames_ticks. do 2 f_equal. unfold counted_entries.
    induction samples as [|x samples IH]; [reflexivity|]. cbn [omap list_omap].
    destruct (counted_default self x.2 Hfe Hflt) as [entry ->].
    cbn [length]. by rewrite IH.
Qed.

Lemma size_increment (m : gmap string Z) (e : string) :
  Z.of_nat (size (<[e := getitem m e + 1]> m))
  = Z.of_nat (size m) + (if decide (is_Some (m !! e)) then 0 else 1).
Proof.
  destruct (m !! e) as [v|] eqn:He.
  - rewrite map_size_insert_Some by done. rewrite decide_True by done. lia.
  - rewrite map_size_insert_None by done.
    rewrite decide_False by (by intros [? ?]). lia.
Qed.

(** X6.  One tick adds one to [num_frames()] when its entry is counted
    and nothing otherwise, and adds one to [num_frames(unique=True)] when
    the counted entry is not yet a key of the table. *)
Theorem tick_adds_at_most_one (self : Profiler) (signum : Z) (f : frame) :
  let self' := (on_itimer signum f self).2 in
  num_frames self' false
  = num_frames self false + match counted self f with Some _ => 1 | None => 0 end ∧
  num_frames self' true
  = num_frames self true +
    match counted self f with
    | Some entry => if decide (is_Some (_stats self !! entry)) then 0 else 1
    | None => 0
    end.
Proof.
  intros self'. subst self'. rewrite on_itimer_counted.
  destruct (counted self f) as [entry|]; [|split; lia].
  unfold num_frames, increment. cbn [_stats set_stats].
  split; [apply sum_values_increment|apply size_increment].
Qed.

Lemma counts_positive_increment (m : gmap string Z) (e : string) :
  counts_positive m → counts_positive (<[e := getitem m e + 1]> m).
Proof.
  intros Hm key n. rewrite lookup_insert. case_decide; [|apply Hm].
  intros [= <-]. unfold getitem. destruct (m !! e) as [v|] eqn:He; simpl; [|lia].
  specialize (Hm e v He). lia.
Qed.

Lemma counts_positive_size (m : gmap string Z) :
  counts_positive m → Z.of_nat (size m) ≤ sum (values m).
Proof.
  intros Hm. rewrite <- length_map_to_list. unfold values.
  assert (Forall (λ kv, 1 ≤ kv.2) (map_to_list m)) as Hall.
  { apply Forall_forall. intros [k v] Hin. apply elem_of_map_to_list in Hin.
    by apply (Hm k v). }
  induction Hall as [|kv l Hkv _ IH]; [reflexivity|].
  rewrite fmap_cons. unfold sum in *. cbn [foldr length]. lia.
Qed.

Lemma counts_positive_step (self : Profiler) (c : call) :
  counts_positive (_stats self) → counts_positive (_stats (profiler_step self c)).
Proof.
  intros Hm. destruct c as [|signum f| |]; [done| | |].
  - cbn [profiler_step]. rewrite on_itimer_counted.
    destruct (counted self f) as [entry|]; [|done].
    by apply counts_positive_increment.
  - rewrite profiler_step_finalizing by done. by destruct (_written self).
  - rewrite profiler_step_finalizing by done. by destruct (_written self).
Qed.

(** X7.  The table of a profiler never holds a count below one: a table
    made by [__init__] is empty, every call keeps the counts at one or
    more, and so [num_frames(unique=True)] never exceeds [num_frames()]. *)
Theorem counts_stay_positive (w : World) (cs : list call) :
  counts_positive (_stats (profiler w)) →
  counts_positive (_stats (profiler (run w cs))) ∧
  num_frames (profiler (run w cs)) true ≤ num_frames (profiler (run w cs)) false.
Proof.
  intros Hm.
  assert (counts_positive (_stats (profiler (run w cs)))) as Hrun.
  { rewrite profiler_run. revert Hm. generalize (profiler w).
    induction cs as [|c cs IH]; intros self Hm; [done|].
    cbn [foldl]. by apply IH, counts_positive_step. }
  split; [exact Hrun|]. by apply counts_positive_size.
Qed.

Lemma occurrences_cons (key e : string) (es : list string) :
  occurrences key (e :: es)
  = ((if decide (e = key) then 1 else 0) + occurrences key es)%nat.
Proof. unfold occurrences. rewrite filter_cons. by case_decide. Qed.

Lemma occurrences_not_in (key : string) (es : list string) :
  key ∉ es → occurrences key es = 0%nat.
Proof.
  induction es as [|e es IH]; intros Hnin; [reflexivity|].
  rewrite occurrences_cons, IH, decide_False; [done| |].
  - intros ->. apply Hnin. by left.
  - intros Hin. apply Hnin. by right.
Qed.

Lemma lookup_add_all (es : list string) (m : gmap string Z) (key : string) :
  add_all m es !! key =
  if decide (key ∈ es) then Some (getitem m key + Z.of_nat (occurrences key es))
  else m !! key.
Proof.
  revert m. induction es as [|e es IH]; intros m.
  - rewrite decide_False by apply not_elem_of_nil. reflexivity.
  - cbn [add_all foldl]. fold (add_all (<[e := getitem m e + 1]> m) es).
    rewrite IH, getitem_increment, occurrences_cons.
    destruct (decide (key ∈ es)) as [Hin|Hnin].
    + rewrite (decide_True (P := key ∈ e :: es)) by (by right).
      destruct (decide (e = key)); f_equal; lia.
    + rewrite lookup_insert, (occurrences_not_in key es Hnin).
      destruct (decide (e = key)) as [->|Hne].
      * by rewrite (decide_True (P := key ∈ key :: es)) by (by left).
      * rewrite (decide_False (P := key ∈ e :: es)); [done|].
        intros [?|?]%elem_of_cons; congruence.
Qed.

Lemma occurrences_Permutation (key : string) (es1 es2 : list string) :
  es1 ≡ₚ es2 → occurrences key es1 = occurrences key es2.
Proof. intros Hperm. unfold occurrences. by rewrite Hperm. Qed.

Lemma add_all_Permutation (es1 es2 : list string) (m : gmap string Z) :
  es1 ≡ₚ es2 → add_all m es1 = add_all m es2.
Proof.
  intros Hperm. apply map_eq. intros key. rewrite !lookup_add_all.
  rewrite (occurrences_Permutation key es1 es2 Hperm).
  destruct (decide (key ∈ es1)) as [Hin|Hnin].
  - rewrite Hperm in Hin. by rewrite decide_True.
  - rewrite Hperm in Hnin. by rewrite decide_False.
Qed.

(** X8.  The order of the samples does not matter: two sequences of
    ticks that are rearrangements of one another leave the same profiler. *)
Theorem ticks_order_irrelevant (self : Profiler) (samples1 samples2 : list (Z * frame)) :
  samples1 ≡ₚ samples2 →
  ticks self samples1 = ticks self samples2.
Proof.
  intros Hperm. rewrite !ticks_add_all. f_equal.
  apply add_all_Permutation. unfold counted_entries. by rewrite Hperm.
Qed.

(** ** The report and the counters *)

Lemma getitem_keys_values (m : gmap string Z) :
  getitem m <$> keys m = values m.
Proof.
  unfold keys, values. rewrite <- list_fmap_compose.
  apply list_fmap_ext. intros i [k v] Hi. cbn.
  apply list_elem_of_lookup_2, elem_of_map_to_list in Hi.
  unfold getitem. by rewrite Hi.
Qed.

(** X9.  The report agrees with the counters: the first [_write_results]
    writes [num_frames(unique=True)] lines, one for each key of a list
    [ks], and the counts on these lines add up to [num_frames()]. *)
Theorem report_agrees_with_num_frames (self : Profiler) :
  _written self = false →
  ∃ ks : list string,
    _fd (_write_results self).2
      = _fd self
        ++ ((λ key, FdWrite (key +:+ " " +:+ pretty (getitem (_stats self) key) +:+ nl))
              <$> ks)
        ++ [FdClose] ∧
    Z.of_nat (length ks) = num_frames self true ∧
    sum (getitem (_stats self) <$> ks) = num_frames self false.
Proof.
  intros Hw. exists (sorted (keys (_stats self))).
  rewrite _write_results_unfold, Hw. cbn [snd finalized _fd set_fd].
  split; [reflexivity|]. unfold num_frames, sorted. split.
  - rewrite merge_sort_Permutation. unfold keys.
    by rewrite length_fmap, length_map_to_list.
  - rewrite <- getitem_keys_values. apply sum_Permutation.
    by rewrite merge_sort_Permutation.
Qed.

(** ** Patterns of ordinary characters *)

Lemma re_compile_ordinary (pattern : string) :
  ordinary pattern = true →
  re_compile pattern = Return (Lit <$> list_ascii_of_string pattern).
Proof.
  unfold ordinary. induction pattern as [|c pattern IH]; [reflexivity|].
  cbn [list_ascii_of_string forallb re_compile]. unfold ordinary_char at 1.
  intros [[Hs Hd]%andb_true_iff Hrest]%andb_true_iff.
  apply negb_true_iff in Hs, Hd. rewrite Hs, Hd, (IH Hrest). reflexivity.
Qed.

Lemma matched_by_literal (pattern mid : string) :
  matched_by (Lit <$> list_ascii_of_string pattern) mid ↔ mid = pattern.
Proof.
  unfold matched_by. revert mid.
  induction pattern as [|c pattern IH]; intros mid; cbn [list_ascii_of_string].
  - rewrite fmap_nil. split.
    + intros H. inversion H as [Hm|]. by destruct mid.
    + intros ->. constructor.
  - rewrite fmap_cons. split.
    + intros H. destruct mid as [|x mid]; [inversion H|].
      cbn [list_ascii_of_string] in H. inversion H as [|? ? ? ? Hx Hrest]; subst.
      cbn [atom_matches] in Hx. apply Ascii.eqb_eq in Hx as ->.
      f_equal. by apply IH.
    + intros ->. cbn [list_ascii_of_string]. constructor.
      * cbn [atom_matches]. apply Ascii.eqb_refl.
      * by apply IH.
Qed.

(** X10.  A pattern of ordinary characters (none of [.^$*+?{}[]\|()])
    compiles, and the filter it gives lets an entry pass exactly when the
    entry contains the pattern as a substring, anywhere in the stack. *)
Theorem ordinary_pattern_filters_by_substring (pattern entry : string) :
  ordinary pattern = true →
  ∃ p : Pattern,
    re_compile pattern = Return p ∧
    (accepts (Some p) entry = true ↔
     ∃ pre post, entry = pre +:+ pattern +:+ post).
Proof.
  intros Hord. exists (Lit <$> list_ascii_of_string pattern).
  split; [by apply re_compile_ordinary|]. cbn [accepts].
  rewrite re_search_spec. split.
  - intros (pre & mid & post & -> & Hm). apply matched_by_literal in Hm as ->.
    by exists pre, post.
  - intros (pre & post & ->). exists pre, pattern, post.
    split; [done|]. by apply matched_by_literal.
Qed.

(** ** Timer, handler and exit *)

Lemma run_app (w : World) (cs1 cs2 : list call) :
  run w (cs1 ++ cs2) = run (run w cs1) cs2.
Proof. apply foldl_app. Qed.

Lemma step_interval (w : World) (c : call) :
  _interval (profiler (step w c)) = _interval (profiler w).
Proof.
  rewrite profiler_step_correct. destruct c as [|signum f| |]; [done| | |].
  - destruct (profiler_step_tick signum f (profiler w)) as [m ->]. done.
  - rewrite profiler_step_finalizing by done. by destruct (_written (profiler w)).
  - rewrite profiler_step_finalizing by done. by destruct (_written (profiler w)).
Qed.

Lemma step_process (w : World) (c : call) :
  sigprof_handler (step w c) = sigprof_handler w || is_start c ∧
  atexit_stop (step w c)
  = (atexit_stop w +
     if is_start c && delay_accepted (_interval (profiler w)) then 1 else 0)%nat.
Proof.
  destruct c; cbn [step is_start andb sigprof_handler atexit_stop].
  - rewrite start_unfold.
    destruct (delay_accepted (_interval (profiler w)));
      cbn [snd sigprof_handler atexit_stop]; rewrite orb_true_r; (split; [done|lia]).
  - rewrite orb_false_r. split; [done|lia].
  - rewrite orb_false_r. split; [done|lia].
  - rewrite stop_unfold. cbn [snd sigprof_handler atexit_stop].
    rewrite orb_false_r. split; [done|lia].
Qed.

Lemma run_process (cs : list call) (w : World) :
  _interval (profiler (run w cs)) = _interval (profiler w) ∧
  sigprof_handler (run w cs) = sigprof_handler w || existsb is_start cs ∧
  atexit_stop (run w cs)
  = (atexit_stop w +
     if delay_accepted (_interval (profiler w))
     then length (filter (λ c, is_start c = true) cs) else 0)%nat.
Proof.
  revert w. induction cs as [|c cs IH]; intros w.
  - cbn. rewrite orb_false_r. repeat split; destruct (delay_accepted _); lia.
  - cbn [run foldl]. fold (run (step w c) cs).
    destruct (IH (step w c)) as (-> & -> & ->). rewrite step_interval.
    destruct (step_process w c) as [-> ->].
    split; [done|]. split; [cbn [existsb]; by rewrite orb_assoc|].
    rewrite filter_cons.
    destruct (is_start c); cbn [andb];
      destruct (delay_accepted (_interval (profiler w))); cbn [length];
      first [rewrite decide_True by done | rewrite decide_False by done | idtac];
      cbn [length]; lia.
Qed.


Lemma written_run (cs : list call) (w : World) :
  _written (profiler (run w cs)) = _written (profiler w) || existsb finalizing cs.
Proof.
  rewrite profiler_run. generalize (profiler w).
  induction cs as [|c cs IH]; intros self; [by rewrite orb_false_r|].
  cbn [foldl existsb]. rewrite IH. destruct (finalizing c) eqn:Hc.
  - rewrite profiler_step_finalizing by done.
    destruct (_written self) eqn:Hw; [by rewrite Hw|reflexivity].
  - by destruct (profiler_step_other self c Hc) as [-> _].
Qed.

Lemma closes_run (cs : list call) (w : World) :
  _written (profiler w) = false →
  closes (_fd (profiler w)) = 0%nat →
  closes (_fd (profiler (run w cs))) = if existsb finalizing cs then 1%nat else 0%nat.
Proof.
  intros Hw Hfd. rewrite profiler_run. destruct (existsb finalizing cs) eqn:Hcs.
  - destruct (existsb_first _ _ Hcs) as (cs1 & c & cs2 & -> & Hcs1 & Hc).
    rewrite (foldl_profiler_step_first cs1 cs2 c _ Hw Hcs1 Hc).
    by rewrite !closes_app, closes_report, Hfd.
  - by destruct (foldl_profiler_step_other cs (profiler w) Hcs) as [_ ->].
Qed.

Lemma existsb_filter_length {A} (P : A → bool) (l : list A) :
  existsb P l = true → (1 ≤ length (filter (λ x, P x = true) l))%nat.
Proof.
  induction l as [|x l IH]; [discriminate|]. cbn [existsb]. rewrite filter_cons.
  destruct (P x) eqn:Hx.
  - intros _. rewrite decide_True by done. cbn [length]. lia.
  - intros H. rewrite decide_False by done. by apply IH.
Qed.

Lemma existsb_replicate_Stop (n : nat) :
  existsb finalizing (replicate (S n) Stop) = true.
Proof. reflexivity. Qed.

(** X12.  A profiler whose interval [setitimer] accepts and that was
    started has its report written when the process ends, and the sink
    closed exactly once, whether or not [stop] was called before and
    however often [start] was called. *)
Theorem report_written_once_at_exit (w : World) (cs : list call) :
  delay_accepted (_interval (profiler w)) = true →
  _written (profiler w) = false →
  closes (_fd (profiler w)) = 0%nat →
  existsb is_start cs = true →
  _written (profiler (at_exit (run w cs))) = true ∧
  closes (_fd (profiler (at_exit (run w cs)))) = 1%nat.
Proof.
  intros Hacc Hw Hfd Hstart. unfold at_exit.
  destruct (run_process cs w) as (_ & _ & ->). rewrite Hacc.
  pose proof (existsb_filter_length is_start cs Hstart) as Hn.
  destruct (atexit_stop w + length (filter (λ c, is_start c = true) cs))%nat
    as [|n] eqn:Hreg; [lia|].
  rewrite <- run_app. split.
  - rewrite written_run, existsb_app, existsb_replicate_Stop.
    by rewrite !orb_true_r.
  - rewrite closes_run by done.
    by rewrite existsb_app, existsb_replicate_Stop, orb_true_r.
Qed.

Lemma delay_refused_not_accepted (x : Q) :
  delay_refused x = true → delay_accepted x = false.
Proof.
  unfold delay_refused, delay_accepted. intros [_ Hhi]%andb_true_iff.
  destruct (Qle_bool 0 x) eqn:Hlo; [|reflexivity]. exfalso.
  apply Qle_bool_iff in Hlo, Hhi.
  pose proof (Qle_trans _ _ _ Hlo Hhi) as Hle.
  apply Qle_bool_iff in Hle. discriminate Hle.
Qed.

(** X19.  A profiler whose interval is negative (two microseconds or
    more below zero) cannot be started: [start] raises [ItimerError] when
    it sets the timer; by then the handler is installed, but the timer is
    as it was and [stop] is not registered to run at exit.  So when
    nothing was registered before and no call writes the report, the end
    of the process writes none. *)
Theorem start_refuses_negative_interval (w : World) (cs : list call) :
  delay_refused (_interval (profiler w)) = true →
  start w
  = (Raise ItimerError, mkWorld (profiler w) true (itimer_prof w) (atexit_stop w)) ∧
  (atexit_stop w = 0%nat →
   _written (profiler w) = false →
   existsb finalizing cs = false →
   _written (profiler (at_exit (run w cs))) = false ∧
   _fd (profiler (at_exit (run w cs))) = _fd (profiler w)).
Proof.
  intros Href. pose proof (delay_refused_not_accepted _ Href) as Hacc. split.
  - by rewrite start_unfold, Hacc, Href.
  - intros Hreg Hw Hcs. unfold at_exit.
    destruct (run_process cs w) as (_ & _ & ->). rewrite Hacc, Hreg.
    cbn [Nat.add replicate]. change (run (run w cs) []) with (run w cs).
    rewrite profiler_run.
    destruct (foldl_profiler_step_other cs (profiler w) Hcs) as [-> ->]. done.
Qed.

(** ** Thread names *)

Lemma get_thread_name_absent (threads : list Thread) (ident_ : Z) :
  ident_ ∉ ident <$> threads → get_thread_name threads ident_ = pretty ident_.
Proof.
  induction threads as [|th threads IH]; [reflexivity|].
  rewrite fmap_cons, not_elem_of_cons. intros [Hne Hnin].
  cbn [get_thread_name]. rewrite decide_False by done. by apply IH.
Qed.

(** X13.  When the live threads have different identifiers,
    [get_thread_name] gives for the identifier of each of them its name;
    for an identifier no live thread has it gives the identifier in
    decimal. *)
Theorem get_thread_name_finds_thread (threads : list Thread) :
  NoDup (ident <$> threads) →
  (∀ th, th ∈ threads → get_thread_name threads (ident th) = getName th) ∧
  (∀ ident_, ident_ ∉ ident <$> threads →
     get_thread_name threads ident_ = pretty ident_).
Proof.
  intros Hnodup. split; [|intros ident_; apply get_thread_name_absent].
  induction threads as [|th0 threads IH]; intros th Hin; [by inversion Hin|].
  rewrite fmap_cons in Hnodup. apply NoDup_cons in Hnodup as [Hfresh Hnodup].
  cbn [get_thread_name]. apply elem_of_cons in Hin as [->|Hin].
  - by rewrite decide_True.
  - rewrite decide_False; [by apply IH|].
    intros Heq. apply Hfresh. rewrite Heq. by apply list_elem_of_fmap_2.
Qed.

(** ** Stacks that grow *)

Lemma extract_frame_info_call (fn : string) (ln : Z) (name : string)
    (text : option string) (f' : frame) :
  extract_frame_info (Frame fn ln name text (Some f'))
  = extract_frame_info f' ++ [frame_info (fn, ln, name, text)].
Proof.
  unfold extract_frame_info, extract_stack. cbn [walk_stack].
  rewrite reverse_cons. fold (extract_stack f').
  destruct (extract_stack_outermost f') as [rest ->].
  cbn [app drop]. by rewrite !drop_0, fmap_app.
Qed.

Lemma format_all_app (fe : FrameInfo → outcome string) (l1 l2 : list FrameInfo) :
  format_all fe (l1 ++ l2)
  = (ss1 ← format_all fe l1; ss2 ← format_all fe l2; Return (ss1 ++ ss2)).
Proof.
  induction l1 as [|fi l1 IH]; cbn [app format_all].
  - cbn. by destruct (format_all fe l2).
  - destruct (fe fi) as [s|e]; [|reflexivity]. cbn. rewrite IH.
    destruct (format_all fe l1) as [ss1|e]; [|reflexivity]. cbn.
    by destruct (format_all fe l2).
Qed.

Lemma concat_snoc (l : list string) (s : string) :
  String.concat ";" (l ++ [s])
  = match l with
    | [] => s
    | _ => String.concat ";" l +:+ ";" +:+ s
    end.
Proof.
  induction l as [|x l IH]; [reflexivity|].
  destruct l as [|y l]; [reflexivity|].
  change (String.concat ";" ((x :: y :: l) ++ [s]))
    with (x +:+ ";" +:+ String.concat ";" ((y :: l) ++ [s])).
  rewrite IH.
  change (String.concat ";" (x :: y :: l))
    with (x +:+ ";" +:+ String.concat ";" (y :: l)).
  by rewrite !append_assoc.
Qed.

Lemma format_all_nil_inv (fe : FrameInfo → outcome string) (l : list FrameInfo) :
  format_all fe l = Return [] → l = [].
Proof.
  destruct l as [|fi l]; [done|]. cbn [format_all].
  destruct (fe fi); [|done]. cbn. by destruct (format_all fe l).
Qed.

(** The entry of a stack to which one record is added. *)
Lemma encode_snoc (fe : FrameInfo → outcome string) (l : list FrameInfo)
    (x : FrameInfo) (e s : string) :
  (ss ← format_all fe l; Return (String.concat ";" ss)) = Return e →
  fe x = Return s →
  (ss ← format_all fe (l ++ [x]); Return (String.concat ";" ss))
  = Return (match l with [] => s | _ => e +:+ ";" +:+ s end).
Proof.
  intros He Hs. rewrite format_all_app. cbn [format_all]. rewrite Hs.
  destruct (format_all fe l) as [ss|err] eqn:Hl; [|discriminate].
  cbn in *. injection He as <-. rewrite concat_snoc.
  destruct ss as [|s0 ss].
  - by rewrite (format_all_nil_inv fe l Hl).
  - destruct l; [discriminate|reflexivity].
Qed.

(** X14.  Without collapsing, the entry of a stack extends the entry of
    the caller's stack: when a frame is called from [f'], its record is
    added after [;] to the entry of [f'], or is the whole entry when [f']
    is the outermost frame. *)
Theorem callee_entry_extends_caller_entry
    (fn : string) (ln : Z) (name : string) (text : option string) (f' : frame)
    (fe : FrameInfo → outcome string) (e' s : string) :
  create_flamegraph_entry f' fe false = Return e' →
  fe (frame_info (fn, ln, name, text)) = Return s →
  create_flamegraph_entry (Frame fn ln name text (Some f')) fe false
  = Return (match extract_frame_info f' with
            | [] => s
            | _ => e' +:+ ";" +:+ s
            end).
Proof.
  unfold create_flamegraph_entry. rewrite extract_frame_info_call.
  rewrite !encode_frames_formats. apply encode_snoc.
Qed.

Lemma run_heads_from_snoc (l : list FrameInfo) (x : FrameInfo) (prev : option string) :
  run_heads_from prev (l ++ [x])
  = run_heads_from prev l
    ++ (if decide (default prev (Some <$> last_fun l) ≠ Some (fun_ x))
        then [x] else []).
Proof.
  revert prev. induction l as [|fi l IH]; intros prev.
  - cbn. by destruct (decide (prev ≠ Some (fun_ x))).
  - cbn [app run_heads_from]. rewrite !IH.
    assert (default (Some (fun_ fi)) (Some <$> last_fun l)
            = default prev (Some <$> last_fun (fi :: l))) as ->.
    { unfold last_fun. destruct l as [|fi' l]; [reflexivity|].
      rewrite last_cons_cons.
      destruct (last (fi' :: l)) as [y|] eqn:Hlast; [reflexivity|].
      by apply last_None in Hlast. }
    by destruct (decide (prev ≠ Some (fun_ fi))).
Qed.

Lemma run_heads_snoc (l : list FrameInfo) (x : FrameInfo) :
  run_heads (l ++ [x])
  = run_heads l ++ (if decide (last_fun l ≠ Some (fun_ x)) then [x] else []).
Proof.
  rewrite <- !run_heads_from_None, run_heads_from_snoc.
  unfold last_fun. by destruct (last l).
Qed.

Lemma run_heads_nil_inv (l : list FrameInfo) : run_heads l = [] → l = [].
Proof.
  rewrite <- run_heads_from_None. destruct l as [|fi l]; [done|].
  cbn [run_heads_from]. by rewrite decide_True.
Qed.

(** X15.  With collapsing, a frame called from a frame of the same routine
    name leaves the entry as it is, and the formatting function is not
    asked about it; a frame of another name adds its record as without
    collapsing. *)
Theorem recursive_call_keeps_collapsed_entry
    (fn : string) (ln : Z) (name : string) (text : option string) (f' : frame)
    (fe : FrameInfo → outcome string) (e' : string) :
  create_flamegraph_entry f' fe true = Return e' →
  (last_fun (extract_frame_info f') = Some name →
   create_flamegraph_entry (Frame fn ln name text (Some f')) fe true = Return e') ∧
  (∀ s, last_fun (extract_frame_info f') ≠ Some name →
     fe (frame_info (fn, ln, name, text)) = Return s →
     create_flamegraph_entry (Frame fn ln name text (Some f')) fe true
     = Return (match extract_frame_info f' with
               | [] => s
               | _ => e' +:+ ";" +:+ s
               end)).
Proof.
  unfold create_flamegraph_entry. rewrite extract_frame_info_call.
  rewrite !encode_frames_formats, run_heads_snoc. cbn [frame_info fun_].
  intros He'. split.
  - intros Hlast. rewrite decide_False by (by intros []). by rewrite app_nil_r.
  - intros s Hlast Hs. rewrite decide_True by done.
    rewrite (encode_snoc fe _ _ e' s He' Hs).
    destruct (extract_frame_info f') as [|fi l] eqn:Hl; [reflexivity|].
    destruct (run_heads (fi :: l)) eqn:Hr; [|reflexivity].
    by apply run_heads_nil_inv in Hr.
Qed.

(** ** What collapsing leaves *)

Lemma adjacent_distinct_run_heads_from (fis : list FrameInfo) (prev : option string) :
  adjacent_distinct prev (run_heads_from prev fis) = true.
Proof.
  revert prev. induction fis as [|fi fis IH]; intros prev; [reflexivity|].
  cbn [run_heads_from]. destruct (decide (prev ≠ Some (fun_ fi))) as [Hne|Heq].
  - cbn [adjacent_distinct]. by rewrite bool_decide_true, IH.
  - apply dec_stable in Heq. rewrite Heq. apply IH.
Qed.

Lemma run_heads_from_distinct (fis : list FrameInfo) (prev : option string) :
  adjacent_distinct prev fis = true → run_heads_from prev fis = fis.
Proof.
  revert prev. induction fis as [|fi fis IH]; intros prev; [reflexivity|].
  cbn [adjacent_distinct run_heads_from].
  intros [Hne%bool_decide_eq_true Hrest]%andb_true_iff.
  by rewrite decide_True, IH.
Qed.

(** X16.  The frames that collapsing keeps never show the same routine
    name twice in a row, and collapsing them again keeps them all; a
    snapshot that has no two neighbours of the same name is encoded with
    collapsing as it is without. *)
Theorem collapsing_leaves_no_adjacent_repeat
    (fis : list FrameInfo) (fe : FrameInfo → outcome string) :
  adjacent_distinct None (run_heads fis) = true ∧
  run_heads (run_heads fis) = run_heads fis ∧
  encode_frames (run_heads fis) fe true = encode_frames fis fe true ∧
  (adjacent_distinct None fis = true →
   encode_frames fis fe true = encode_frames fis fe false).
Proof.
  assert (adjacent_distinct None (run_heads fis) = true) as Hd.
  { rewrite <- run_heads_from_None. apply adjacent_distinct_run_heads_from. }
  assert (run_heads (run_heads fis) = run_heads fis) as Hidem.
  { rewrite <- (run_heads_from_None (run_heads fis)).
    by apply run_heads_from_distinct. }
  split; [exact Hd|]. split; [exact Hidem|]. split.
  - rewrite !(encode_frames_formats _ fe true). by rewrite Hidem.
  - intros Hfis. rewrite !encode_frames_formats.
    rewrite <- run_heads_from_None. by rewrite run_heads_from_distinct.
Qed.

(** ** Samples of the outermost frame *)

(** X17.  A tick that interrupts the outermost frame has the empty entry:
    the formatting function is not called, the handler returns, and the
    empty string is counted like any other entry when the filter lets it
    pass, to be reported on a line that starts with the space. *)
Theorem tick_on_outermost_frame_counts_empty_entry
    (self : Profiler) (signum : Z) (fn : string) (ln : Z) (name : string)
    (text : option string) :
  on_itimer signum (Frame fn ln name text None) self
  = (Return tt, if accepts (_filter self) "" then increment "" self else self) ∧
  (_filter self = None →
   _stats (on_itimer signum (Frame fn ln name text None) self).2 !! ""
   = Some (getitem (_stats self) "" + 1)) ∧
  ∀ n : Z, report_line "" n = Return (" " +:+ pretty n +:+ nl).
Proof.
  assert (on_itimer signum (Frame fn ln name text None) self
          = (Return tt, if accepts (_filter self) "" then increment "" self else self))
    as Htick.
  { rewrite on_itimer_unfold.
    by destruct (_collapse_recursion self). }
  split; [exact Htick|]. split.
  - intros Hflt. rewrite Htick, Hflt. cbn [accepts snd increment _stats set_stats].
    apply lookup_insert_eq.
  - intros n. apply report_line_returns.
Qed.

(** ** A session *)

Lemma profiler_run_ticks (samples : list (Z * frame)) (w : World) :
  profiler (run w (tick_calls samples)) = ticks (profiler w) samples.
Proof.
  rewrite profiler_run. unfold tick_calls, ticks. generalize (profiler w).
  induction samples as [|x samples IH]; intros self; [reflexivity|].
  rewrite fmap_cons. cbn [foldl profiler_step]. apply IH.
Qed.

Lemma existsb_finalizing_ticks (samples : list (Z * frame)) :
  existsb finalizing (tick_calls samples) = false.
Proof. induction samples as [|x samples IH]; [reflexivity|exact IH]. Qed.

Lemma counted_entries_default_length (self : Profiler) (samples : list (Z * frame)) :
  _format_entry self = default_format_entry_ →
  _filter self = None →
  length (counted_entries self samples) = length samples.
Proof.
  intros Hfe Hflt. unfold counted_entries.
  induction samples as [|x samples IH]; [reflexivity|]. cbn [omap list_omap].
  destruct (counted_default self x.2 Hfe Hflt) as [entry ->].
  cbn [length]. by rewrite IH.
Qed.

Lemma num_frames_finalized (self : Profiler) (unique : bool) :
  num_frames (finalized self) unique = num_frames self unique.
Proof. reflexivity. Qed.

Lemma num_frames_empty (self : Profiler) (unique : bool) :
  _stats self = ∅ → num_frames self unique = 0.
Proof.
  intros Hs. unfold num_frames, values. rewrite Hs.
  destruct unique; [by rewrite map_size_empty|by rewrite map_to_list_empty].
Qed.


(** ** The further theorems at concrete inputs *)

Lemma short_fname_is_basename_witness :
  re_sub_dirs ("/opt/flamegraph" +:+ String "/" "flamegraph.py") = "flamegraph.py" ∧
  re_sub_dirs "flamegraph.py" = "flamegraph.py".
Proof.
  apply (short_fname_is_basename "/opt/flamegraph" "flamegraph.py"); reflexivity.
Defined.

Lemma unknown_format_key_raises_KeyError_witness :
  default_format_entry (mkFrameInfo "/src/f.py" "f.py" 5 "foo")
    ("at " +:+ "%(" +:+ "fn" +:+ String ")" "s:%(line)s")
  = Raise (KeyError "fn").
Proof.
  apply (unknown_format_key_raises_KeyError _ "at " "fn" "s:%(line)s");
    [reflexivity|reflexivity|reflexivity|discriminate..].
Defined.

Lemma every_tick_counted_by_default_witness :
  (∀ signum f, (on_itimer signum f profiler_default).1 = Return tt) ∧
  num_frames (ticks profiler_default samples_example) false
  = num_frames profiler_default false + Z.of_nat (length samples_example).
Proof.
  apply (every_tick_counted_by_default profiler_default samples_example);
    reflexivity.
Defined.

Lemma counts_stay_positive_witness :
  counts_positive (_stats (profiler (run world_example [Tick 27 frame_foo_1; Stop]))) ∧
  num_frames (profiler (run world_example [Tick 27 frame_foo_1; Stop])) true
  ≤ num_frames (profiler (run world_example [Tick 27 frame_foo_1; Stop])) false.
Proof.
  apply (counts_stay_positive world_example [Tick 27 frame_foo_1; Stop]).
  intros key n. cbn [world_example profiler profiler_foo _stats]. unfold stats_example.
  rewrite !lookup_insert, lookup_empty.
  repeat case_decide; intros [= <-]; lia.
Defined.

Lemma ticks_order_irrelevant_witness :
  ticks (profiler_foo ∅) samples_example
  = ticks (profiler_foo ∅) (reverse samples_example).
Proof.
  apply (ticks_order_irrelevant (profiler_foo ∅) samples_example (reverse samples_example)).
  symmetry. apply reverse_Permutation.
Defined.

Lemma report_agrees_with_num_frames_witness :
  ∃ ks : list string,
    _fd (_write_results (profiler_foo stats_example)).2
      = _fd (profiler_foo stats_example)
        ++ ((λ key, FdWrite (key +:+ " " +:+ pretty (getitem stats_example key) +:+ nl))
              <$> ks)
        ++ [FdClose] ∧
    Z.of_nat (length ks) = num_frames (profiler_foo stats_example) true ∧
    sum (getitem stats_example <$> ks) = num_frames (profiler_foo stats_example) false.
Proof.
  apply (report_agrees_with_num_frames (profiler_foo stats_example)). reflexivity.
Defined.

Lemma ordinary_pattern_filters_by_substring_witness :
  ∃ p : Pattern,
    re_compile "foo" = Return p ∧
    (accepts (Some p) "mod@f.py:1;foo@f.py:5" = true ↔
     ∃ pre post, "mod@f.py:1;foo@f.py:5" = pre +:+ "foo" +:+ post).
Proof.
  apply (ordinary_pattern_filters_by_substring "foo" "mod@f.py:1;foo@f.py:5").
  reflexivity.
Defined.

Lemma report_written_once_at_exit_witness :
  _written (profiler (at_exit (run world_idle
     [Start; Tick 27 frame_foo_1; Stop; Start; Tick 27 frame_bar_1]))) = true ∧
  closes (_fd (profiler (at_exit (run world_idle
     [Start; Tick 27 frame_foo_1; Stop; Start; Tick 27 frame_bar_1])))) = 1%nat.
Proof.
  apply (report_written_once_at_exit world_idle
           [Start; Tick 27 frame_foo_1; Stop; Start; Tick 27 frame_bar_1]);
    reflexivity.
Defined.


Lemma start_refuses_negative_interval_witness :
  start world_negative
  = (Raise ItimerError,
     mkWorld (profiler world_negative) true (itimer_prof world_negative)
       (atexit_stop world_negative)) ∧
  (atexit_stop world_negative = 0%nat →
   _written (profiler world_negative) = false →
   existsb finalizing [Start; Tick 27 frame_foo_1] = false →
   _written (profiler (at_exit (run world_negative [Start; Tick 27 frame_foo_1])))
   = false ∧
   _fd (profiler (at_exit (run world_negative [Start; Tick 27 frame_foo_1])))
   = _fd (profiler world_negative)).
Proof.
  apply (start_refuses_negative_interval world_negative [Start; Tick 27 frame_foo_1]).
  reflexivity.
Defined.


Lemma get_thread_name_finds_thread_witness :
  (∀ th, th ∈ threads_example →
     get_thread_name threads_example (ident th) = getName th) ∧
  (∀ ident_, ident_ ∉ ident <$> threads_example →
     get_thread_name threads_example ident_ = pretty ident_).
Proof.
  apply (get_thread_name_finds_thread threads_example).
  apply (bool_decide_unpack _). vm_compute. exact I.
Defined.

Lemma callee_entry_extends_caller_entry_witness :
  create_flamegraph_entry (Frame "/src/f.py" 5 "foo" None (Some frame_foo))
    default_format_entry_ false
  = Return (match extract_frame_info frame_foo with
            | [] => "foo@f.py:5"
            | _ => "mod@f.py:1;foo@f.py:5" +:+ ";" +:+ "foo@f.py:5"
            end).
Proof.
  apply (callee_entry_extends_caller_entry "/src/f.py" 5 "foo" None frame_foo
           default_format_entry_ "mod@f.py:1;foo@f.py:5" "foo@f.py:5");
    vm_compute; reflexivity.
Defined.

Lemma recursive_call_keeps_collapsed_entry_witness :
  (last_fun (extract_frame_info frame_foo) = Some "foo" →
   create_flamegraph_entry (Frame "/src/f.py" 5 "foo" None (Some frame_foo))
     default_format_entry_ true
   = Return "mod@f.py:1;foo@f.py:5") ∧
  (∀ s, last_fun (extract_frame_info frame_foo) ≠ Some "foo" →
     default_format_entry_ (frame_info ("/src/f.py", 5, "foo", None)) = Return s →
     create_flamegraph_entry (Frame "/src/f.py" 5 "foo" None (Some frame_foo))
       default_format_entry_ true
     = Return (match extract_frame_info frame_foo with
               | [] => s
               | _ => "mod@f.py:1;foo@f.py:5" +:+ ";" +:+ s
               end)).
Proof.
  apply (recursive_call_keeps_collapsed_entry "/src/f.py" 5 "foo" None frame_foo
           default_format_entry_ "mod@f.py:1;foo@f.py:5").
  vm_compute. reflexivity.
Defined.
